(** * Selection and pagination logic of the artwork table

    A shallow embedding of the selection-state logic of the React
    components in [src/src/ArtworkTable.tsx] (the last revision in that
    file, which keeps a [Set<number>] of selected identifiers and
    fetches pages in batches of three) and in [src/unnamed/part_000]
    (the revision with a hand-written table, checkbox handler and
    paginator, which keeps an array of selected [Artwork] objects and
    fetches pages one after the other).

    Conventions.
    - JavaScript numbers that hold counts, offsets and identifiers are
      integers here ([Z]); array lengths, array indices and page
      numbers produced by [Array.from] are [nat].
    - A [Set<number>] is the list of its elements in insertion order,
      without repetition: this is the order in which a JavaScript [Set]
      is iterated and spread.
    - React state is a record; each [setX] call is a function on it.
      The record also keeps the history of the calls made, so that
      "this setter was not called" can be stated.
    - The remote API is a function from page numbers to settled
      promises; the order in which the promises of one batch settle is
      a parameter. *)

From stdpp Require Import base tactics option list numbers strings pretty.

Local Open Scope Z_scope.

(** ** JavaScript [Set<number>] *)

Module JSSet.

(** [new Set()] *)
Definition empty : list Z := [].

(** [s.has(x)] *)
Definition has (s : list Z) (x : Z) : bool := bool_decide (x ∈ s).

(** [s.add(x)]: a new element goes last, a present one stays where
    it is. *)
Definition add (s : list Z) (x : Z) : list Z :=
  if has s x then s else s ++ [x].

(** [new Set(iterable)] *)
Definition from (l : list Z) : list Z := foldl add empty l.

(** [s.size] *)
Definition size (s : list Z) : Z := Z.of_nat (length s).

End JSSet.

(** ** Promises *)

(** How a promise ends. *)
Inductive Settled (A : Type) : Type :=
  | Fulfilled (a : A)
  | Rejected.
Arguments Fulfilled {A} a.
Arguments Rejected {A}.

(** [Promise.all(promises)]: every input promise owns the slot of its
    index in the array of values.  [arrivals] lists the indices in the
    order in which the promises settle.  A fulfilment stores its value
    in its slot, the first rejection rejects the whole.  When no
    arrival is left, the result is the array of values if every slot is
    filled; [None] stands for a promise that stays pending. *)
Fixpoint Promise_all_run {A : Type} (arrivals : list nat)
    (promises : list (Settled A)) (values : list (option A))
    : option (Settled (list A)) :=
  match arrivals with
  | [] =>
      match mapM (λ v, v) values with
      | Some vs => Some (Fulfilled vs)
      | None => None
      end
  | k :: rest =>
      match promises !! k with
      | Some (Fulfilled v) => Promise_all_run rest promises (<[k := Some v]> values)
      | Some Rejected => Some Rejected
      | None => Promise_all_run rest promises values
      end
  end.

Definition Promise_all {A : Type} (arrivals : list nat)
    (promises : list (Settled A)) : option (Settled (list A)) :=
  Promise_all_run arrivals promises (replicate (length promises) None).

(** The value of a promise, when it is fulfilled. *)
Definition value_of {A : Type} (p : Settled A) : option A :=
  match p with Fulfilled v => Some v | Rejected => None end.

(** The array of all values if every promise is fulfilled, a rejection
    otherwise: no order of arrival appears here. *)
Definition all_settled {A : Type} (promises : list (Settled A))
    : Settled (list A) :=
  match mapM value_of promises with
  | Some vs => Fulfilled vs
  | None => Rejected
  end.

(** ** The remote API *)

(** One element of [data.data] in a response body. *)
Record ApiItem : Type := {
  item_id : Z;
  item_title : string;
  item_artwork_type_title : option string
}.

(** A parsed response body: [data.data] and [data.pagination.total]. *)
Record PageResponse : Type := {
  data : list ApiItem;
  pagination_total : Z
}.

(** [fetch(`.../artworks?page=${p}`).then(response => response.json())]
    for each page number [p].  [Rejected] covers a rejected [fetch] and
    a body that does not parse. *)
Definition Network : Type := nat → Settled PageResponse.

(** [Math.ceil(a / b)] for integers [a] and [b > 0]. *)
Definition ceil_div (a b : Z) : Z := (a + b - 1) / b.

(** [const API_PAGE_SIZE = 12] *)
Definition API_PAGE_SIZE : Z := 12.

(** [interface Artwork] *)
Record Artwork : Type := {
  id : Z;
  api_link : string;
  title : string;
  artwork_type_title : string
}.

(** [interface PaginatorPageState] *)
Record PaginatorPageState : Type := {
  ev_first : Z;
  ev_rows : Z;
  ev_page : Z;
  ev_pageCount : Z
}.

(** ** [src/src/ArtworkTable.tsx], last revision (lines 540-838) *)

Module ArtworkTable.

(** The calls that the handlers make on the outside world and on the
    state setters, in the order in which they are made. *)
Inductive Call : Type :=
  | CallFetch (page : nat)
  | CallSetSelectedIds (s : list Z)
  | CallSetFirst (z : Z)
  | CallSetBulkSelectLoading (b : bool)
  | CallSetTempRows (v : option Z)
  | CallConsoleError
  | CallHide.

(** The [useState] cells of the component, the visibility of the
    overlay panel behind [op], and the history of calls. *)
Record State : Type := {
  artworks : list Artwork;
  loading : bool;
  totalRecords : Z;
  first : Z;
  selectedIds : list Z;
  tempRows : option Z;
  bulkSelectLoading : bool;
  overlayVisible : bool;
  calls : list Call
}.

Definition record (c : Call) (st : State) : State :=
  {| artworks := artworks st; loading := loading st;
     totalRecords := totalRecords st; first := first st;
     selectedIds := selectedIds st; tempRows := tempRows st;
     bulkSelectLoading := bulkSelectLoading st;
     overlayVisible := overlayVisible st;
     calls := calls st ++ [c] |}.

Definition setSelectedIds (s : list Z) (st : State) : State :=
  {| artworks := artworks st; loading := loading st;
     totalRecords := totalRecords st; first := first st;
     selectedIds := s; tempRows := tempRows st;
     bulkSelectLoading := bulkSelectLoading st;
     overlayVisible := overlayVisible st;
     calls := calls st ++ [CallSetSelectedIds s] |}.

Definition setFirst (z : Z) (st : State) : State :=
  {| artworks := artworks st; loading := loading st;
     totalRecords := totalRecords st; first := z;
     selectedIds := selectedIds st; tempRows := tempRows st;
     bulkSelectLoading := bulkSelectLoading st;
     overlayVisible := overlayVisible st;
     calls := calls st ++ [CallSetFirst z] |}.

Definition setBulkSelectLoading (b : bool) (st : State) : State :=
  {| artworks := artworks st; loading := loading st;
     totalRecords := totalRecords st; first := first st;
     selectedIds := selectedIds st; tempRows := tempRows st;
     bulkSelectLoading := b;
     overlayVisible := overlayVisible st;
     calls := calls st ++ [CallSetBulkSelectLoading b] |}.

Definition setTempRows (v : option Z) (st : State) : State :=
  {| artworks := artworks st; loading := loading st;
     totalRecords := totalRecords st; first := first st;
     selectedIds := selectedIds st; tempRows := v;
     bulkSelectLoading := bulkSelectLoading st;
     overlayVisible := overlayVisible st;
     calls := calls st ++ [CallSetTempRows v] |}.

(** [op.current?.hide()] *)
Definition hide (st : State) : State :=
  {| artworks := artworks st; loading := loading st;
     totalRecords := totalRecords st; first := first st;
     selectedIds := selectedIds st; tempRows := tempRows st;
     bulkSelectLoading := bulkSelectLoading st;
     overlayVisible := false;
     calls := calls st ++ [CallHide] |}.

(** [console.error(...)] *)
Definition consoleError (st : State) : State := record CallConsoleError st.

(** The [fetch] calls of one batch, issued by [batch.map]. *)
Definition issue (batch : list nat) (st : State) : State :=
  foldl (λ s p, record (CallFetch p) s) st batch.

(** [onPageChange], lines 606-608. *)
Definition onPageChange (event : PaginatorPageState) (st : State) : State :=
  setFirst (ev_first event) st.

(** [const CONCURRENT_REQUESTS = 3] *)
Definition CONCURRENT_REQUESTS : nat := 3.

(** The local variables of one run of [applyRowsPerPageAndSelect]
    that live across the [await]. *)
Record Bulk : Type := {
  totalToSelect : Z;
  pageNumbers : list nat;
  i : nat;
  newSelectedIds : list Z;
  selectedCount : Z
}.

(** Lines 685-689: the items of one response, until the count is
    reached. *)
Fixpoint take_items (total : Z) (items : list ApiItem)
    (acc : list Z * Z) : list Z * Z :=
  match items with
  | [] => acc
  | item :: rest =>
      if acc.2 >=? total then acc
      else take_items total rest (JSSet.add acc.1 (item_id item), acc.2 + 1)
  end.

(** Lines 682-690: the responses of one batch, in the order of
    [batchResults]. *)
Fixpoint take_results (total : Z) (results : list PageResponse)
    (acc : list Z * Z) : list Z * Z :=
  match results with
  | [] => acc
  | d :: rest =>
      if acc.2 >=? total then acc
      else take_results total rest (take_items total (data d) acc)
  end.

(** Where the [for] loop of line 671 goes next: out of the loop, or
    to the [await] of line 680 with a batch of pages. *)
Inductive LoopHead : Type :=
  | Leave
  | Await (batch : list nat).

(** Lines 671-674. *)
Definition loop_head (b : Bulk) : LoopHead :=
  if bool_decide (i b < length (pageNumbers b))%nat then
    if selectedCount b >=? totalToSelect b then Leave
    else Await (take CONCURRENT_REQUESTS (drop (i b) (pageNumbers b)))
  else Leave.

(** Lines 682-690 and the [i += CONCURRENT_REQUESTS] of line 671. *)
Definition after_batch (b : Bulk) (results : list PageResponse) : Bulk :=
  let acc := take_results (totalToSelect b) results
               (newSelectedIds b, selectedCount b) in
  {| totalToSelect := totalToSelect b;
     pageNumbers := pageNumbers b;
     i := (i b + CONCURRENT_REQUESTS)%nat;
     newSelectedIds := acc.1;
     selectedCount := acc.2 |}.

(** The loop of lines 671-691.  [sched j n] is the order in which the
    [n] promises of the batch that starts at index [j] settle.  The
    result is how the [try] block ends: [Fulfilled] with the set
    built, or [Rejected] when an [await] throws.  [None]: the loop
    has not ended within [fuel] batches, or an [await] stays
    pending. *)
Fixpoint run_batches (fuel : nat) (net : Network)
    (sched : nat → nat → list nat) (b : Bulk) (st : State)
    : option (Settled (list Z) * State) :=
  match loop_head b with
  | Leave => Some (Fulfilled (newSelectedIds b), st)
  | Await batch =>
      match fuel with
      | O => None
      | S fuel' =>
          match Promise_all (sched (i b) (length batch)) (net <$> batch) with
          | None => None
          | Some Rejected => Some (Rejected, issue batch st)
          | Some (Fulfilled results) =>
              run_batches fuel' net sched (after_batch b results)
                (issue batch st)
          end
      end
  end.

(** The same loop with [Promise.all] replaced by [all_settled] and
    with the list of pages requested in place of the state: what
    [run_batches] computes when every promise settles
    ([run_batches_any_order] below). *)
Fixpoint batches_result (fuel : nat) (net : Network) (b : Bulk)
    : option (Settled (list Z) * list nat) :=
  match loop_head b with
  | Leave => Some (Fulfilled (newSelectedIds b), [])
  | Await batch =>
      match fuel with
      | O => None
      | S fuel' =>
          match all_settled (net <$> batch) with
          | Rejected => Some (Rejected, batch)
          | Fulfilled results =>
              match batches_result fuel' net (after_batch b results) with
              | Some (r, fetched) => Some (r, batch ++ fetched)
              | None => None
              end
          end
      end
  end.

(** Lines 660-669: the locals at the first loop test.  [tempRows] and
    [totalRecords] are the values of the render whose handler runs. *)
Definition bulk_init (total : Z) (st : State) : Bulk :=
  let maxPages := ceil_div total API_PAGE_SIZE in
  let pagesToFetch :=
    Z.min maxPages (ceil_div (totalRecords st) API_PAGE_SIZE) in
  {| totalToSelect := total;
     pageNumbers := S <$> seq 0 (Z.to_nat pagesToFetch);
     i := 0%nat;
     newSelectedIds := JSSet.empty;
     selectedCount := 0 |}.

(** Line 693, then [finally] and lines 701-702. *)
Definition finish_ok (ids : list Z) (st : State) : State :=
  hide (setFirst 0 (setBulkSelectLoading false (setSelectedIds ids st))).

(** [catch], then [finally] and lines 701-702. *)
Definition finish_error (st : State) : State :=
  hide (setFirst 0 (setBulkSelectLoading false (consoleError st))).

(** [applyRowsPerPageAndSelect], lines 648-703. *)
Definition applyRowsPerPageAndSelect (net : Network)
    (sched : nat → nat → list nat) (st : State) : option State :=
  let total := default 0 (tempRows st) in
  if total <=? 0 then Some (hide (setSelectedIds JSSet.empty st))
  else
    let st1 := setBulkSelectLoading true st in
    let b := bulk_init total st in
    match run_batches (length (pageNumbers b)) net sched b st1 with
    | None => None
    | Some (Fulfilled ids, st2) => Some (finish_ok ids st2)
    | Some (Rejected, st2) => Some (finish_error st2)
    end.

(** The pages that a run of [applyRowsPerPageAndSelect] from [st]
    requests before it ends. *)
Definition pages_requested (net : Network) (st : State) : list nat :=
  let b := bulk_init (default 0 (tempRows st)) st in
  match batches_result (length (pageNumbers b)) net b with
  | Some (_, fetched) => fetched
  | None => []
  end.

(** [selectAllCurrentPage], lines 706-710. *)
Definition selectAllCurrentPage (st : State) : State :=
  let currentPageIds := JSSet.from (id <$> artworks st) in
  let updatedSelectedIds := JSSet.from (selectedIds st ++ currentPageIds) in
  setSelectedIds updatedSelectedIds st.

(** [deselectAllCurrentPage], lines 713-717. *)
Definition deselectAllCurrentPage (st : State) : State :=
  let currentPageIds := JSSet.from (id <$> artworks st) in
  let updatedSelectedIds :=
    JSSet.from
      (filter (λ x, negb (JSSet.has currentPageIds x) = true) (selectedIds st)) in
  setSelectedIds updatedSelectedIds st.

(** *** Runs that overlap

    [applyRowsPerPageAndSelect] gives up control at the [await] of
    line 680 only.  A system is the component state together with
    the runs of the function, in the order in which they were
    started: [Some b] for a run suspended at the [await] with locals
    [b], [None] for a run that has returned. *)
Record System : Type := {
  ui : State;
  runs : list (option Bulk)
}.

(** From a loop test to the next [await], or to the end of the
    function. *)
Definition resume (b : Bulk) (st : State) : option Bulk * State :=
  match loop_head b with
  | Leave => (None, finish_ok (newSelectedIds b) st)
  | Await batch => (Some b, issue batch st)
  end.

(** A call of [applyRowsPerPageAndSelect], up to its first [await]. *)
Definition start (sys : System) : System :=
  let st := ui sys in
  let total := default 0 (tempRows st) in
  if total <=? 0 then
    {| ui := hide (setSelectedIds JSSet.empty st);
       runs := runs sys ++ [None] |}
  else
    let r := resume (bulk_init total st) (setBulkSelectLoading true st) in
    {| ui := r.2; runs := runs sys ++ [r.1] |}.

(** The [Promise.all] awaited by run [k] settles with [outcome]; the
    run goes on to its next [await] or to its end. *)
Definition settle (k : nat) (outcome : Settled (list PageResponse))
    (sys : System) : System :=
  match runs sys !! k with
  | Some (Some b) =>
      match outcome with
      | Rejected =>
          {| ui := finish_error (ui sys); runs := <[k := None]> (runs sys) |}
      | Fulfilled results =>
          let r := resume (after_batch b results) (ui sys) in
          {| ui := r.2; runs := <[k := r.1]> (runs sys) |}
      end
  | _ => sys
  end.

(** The "Apply Bulk Selection" button, lines 734-740:
    [onClick={applyRowsPerPageAndSelect}] and
    [disabled={bulkSelectLoading || loading}]. *)
Definition click_apply (sys : System) : System :=
  if bulkSelectLoading (ui sys) || loading (ui sys) then sys
  else start sys.

(** [e.value || null], line 726. *)
Definition or_null (value : option Z) : option Z :=
  match value with
  | Some n => if n =? 0 then None else Some n
  | None => None
  end.

(** What can happen to the system: a click on the button, an edit of
    the number input ([onValueChange], line 726), the batch of a run
    settling. *)
Inductive Event : Type :=
  | ClickApply
  | EditRows (v : option Z)
  | BatchSettles (k : nat) (outcome : Settled (list PageResponse)).

Definition step (sys : System) (e : Event) : System :=
  match e with
  | ClickApply => click_apply sys
  | EditRows v => {| ui := setTempRows (or_null v) (ui sys); runs := runs sys |}
  | BatchSettles k outcome => settle k outcome sys
  end.

Definition run_events (sys : System) (es : list Event) : System :=
  foldl step sys es.

(** The batch that a suspended run waits for. *)
Definition awaited (b : Bulk) : list nat :=
  match loop_head b with
  | Await batch => batch
  | Leave => []
  end.

(** Run [k] alone goes on against the API [net], batch after batch,
    until it has returned (or for [fuel] batches). *)
Fixpoint drive (fuel : nat) (net : Network) (k : nat) (sys : System)
    : System :=
  match fuel with
  | O => sys
  | S fuel' =>
      match runs sys !! k with
      | Some (Some b) =>
          drive fuel' net k (settle k (all_settled (net <$> awaited b)) sys)
      | _ => sys
      end
  end.

(** Run [k] is suspended at its [await]. *)
Definition suspended (sys : System) (k : nat) : Prop :=
  ∃ b, runs sys !! k = Some (Some b).

(** At most one run is suspended, and the loading flag is set while
    one is. *)
Definition one_at_a_time (sys : System) : Prop :=
  (∀ j k, suspended sys j → suspended sys k → j = k)
  ∧ (∀ k, suspended sys k → bulkSelectLoading (ui sys) = true).

End ArtworkTable.

(** ** [src/unnamed/part_000]: hand-written table and paginator *)

Module CustomTable.

(** The [useState] cells of the component. *)
Record State : Type := {
  artworks : list Artwork;
  loading : bool;
  totalRecords : Z;
  first : Z;
  selectedArtworks : list Artwork;
  showOverlay : bool;
  tempRows : option Z
}.

Definition setLoading (b : bool) (st : State) : State :=
  {| artworks := artworks st; loading := b;
     totalRecords := totalRecords st; first := first st;
     selectedArtworks := selectedArtworks st;
     showOverlay := showOverlay st; tempRows := tempRows st |}.

Definition setFirst (z : Z) (st : State) : State :=
  {| artworks := artworks st; loading := loading st;
     totalRecords := totalRecords st; first := z;
     selectedArtworks := selectedArtworks st;
     showOverlay := showOverlay st; tempRows := tempRows st |}.

(** [setSelectedArtworks(f)], the updater form. *)
Definition setSelectedArtworks (f : list Artwork → list Artwork)
    (st : State) : State :=
  {| artworks := artworks st; loading := loading st;
     totalRecords := totalRecords st; first := first st;
     selectedArtworks := f (selectedArtworks st);
     showOverlay := showOverlay st; tempRows := tempRows st |}.

Definition setShowOverlay (b : bool) (st : State) : State :=
  {| artworks := artworks st; loading := loading st;
     totalRecords := totalRecords st; first := first st;
     selectedArtworks := selectedArtworks st;
     showOverlay := b; tempRows := tempRows st |}.

(** [onPageChange], lines 78-80. *)
Definition onPageChange (event : PaginatorPageState) (st : State) : State :=
  setFirst (ev_first event) st.

(** The updater passed to [setSelectedArtworks] in
    [handleCheckboxChange], lines 84-95. *)
Definition checkbox_update (artwork : Artwork) (isChecked : bool)
    (prevSelected : list Artwork) : list Artwork :=
  if isChecked then
    if negb (existsb (λ item, id item =? id artwork) prevSelected)
    then prevSelected ++ [artwork]
    else prevSelected
  else filter (λ item, id item ≠ id artwork) prevSelected.

(** [handleCheckboxChange], lines 83-96. *)
Definition handleCheckboxChange (artwork : Artwork) (isChecked : bool)
    (st : State) : State :=
  setSelectedArtworks (checkbox_update artwork isChecked) st.

(** [selectedArtworkIds.has(x)], line 99. *)
Definition isSelected (st : State) (x : Z) : bool :=
  JSSet.has (JSSet.from (id <$> selectedArtworks st)) x.

(** The object built from an item by [data.data.map], lines 124-129. *)
Definition to_artwork (item : ApiItem) : Artwork :=
  {| id := item_id item;
     api_link := pretty (item_id item);
     title := item_title item;
     artwork_type_title :=
       match item_artwork_type_title item with
       | Some s => if decide (s = "") then "N/A" else s
       | None => "N/A"
       end |}.

(** Lines 131-138: the artworks of one page, until the count is
    reached. *)
Fixpoint push_items (total : Z) (fetched : list Artwork)
    (acc : list Artwork * Z) : list Artwork * Z :=
  match fetched with
  | [] => acc
  | artwork :: rest =>
      if acc.2 <? total
      then push_items total rest (acc.1 ++ [artwork], acc.2 + 1)
      else acc
  end.

(** The [while] loop of lines 120-140, one page per turn.  [None]:
    the loop has not ended within [fuel] turns. *)
Fixpoint fetch_pages (fuel : nat) (net : Network) (total maxPages : Z)
    (currentPage : nat) (acc : list Artwork * Z)
    : option (Settled (list Artwork)) :=
  if (acc.2 <? total) && (Z.of_nat currentPage <=? maxPages) then
    match fuel with
    | O => None
    | S fuel' =>
        match net currentPage with
        | Rejected => Some Rejected
        | Fulfilled body =>
            fetch_pages fuel' net total maxPages (S currentPage)
              (push_items total (to_artwork <$> data body) acc)
        end
    end
  else Some (Fulfilled acc.1).

(** [applyRowsPerPageAndSelect], lines 102-152. *)
Definition applyRowsPerPageAndSelect (net : Network) (st : State)
    : option State :=
  let totalToSelect := default 0 (tempRows st) in
  if totalToSelect <=? 0 then
    Some (setShowOverlay false (setSelectedArtworks (λ _, []) st))
  else
    let st1 := setLoading true st in
    let maxPages := ceil_div (totalRecords st) API_PAGE_SIZE in
    match fetch_pages (Z.to_nat maxPages) net totalToSelect maxPages 1%nat
            ([], 0) with
    | None => None
    | Some (Fulfilled newSelectedItems) =>
        Some (setShowOverlay false (setFirst 0 (setLoading false
                (setSelectedArtworks (λ _, newSelectedItems) st1))))
    | Some Rejected =>
        Some (setShowOverlay false (setFirst 0 (setLoading false st1)))
    end.

(** Lines 155-156. *)
Definition currentPage (st : State) : Z := first st / API_PAGE_SIZE.
Definition pageCount (st : State) : Z :=
  ceil_div (totalRecords st) API_PAGE_SIZE.

(** The buttons of the paginator, lines 258-320: "Previous", "Next"
    and one button per page index. *)
Inductive Control : Type :=
  | Previous
  | Next
  | PageButton (i : nat).

(** [Array.from({ length: pageCount }, ...)] renders the page buttons
    of the indices below [pageCount]. *)
Definition rendered (c : Control) (st : State) : bool :=
  match c with
  | PageButton i => bool_decide (Z.of_nat i < pageCount st)
  | _ => true
  end.

(** The [disabled] attribute of each button. *)
Definition disabled (c : Control) (st : State) : bool :=
  match c with
  | Previous => currentPage st =? 0
  | Next => currentPage st >=? pageCount st - 1
  | PageButton _ => false
  end.

(** The argument of [onPageChange] in each [onClick]. *)
Definition event_of (c : Control) (st : State) : PaginatorPageState :=
  match c with
  | Previous =>
      {| ev_first := first st - API_PAGE_SIZE; ev_rows := API_PAGE_SIZE;
         ev_page := currentPage st - 1; ev_pageCount := pageCount st |}
  | Next =>
      {| ev_first := first st + API_PAGE_SIZE; ev_rows := API_PAGE_SIZE;
         ev_page := currentPage st + 1; ev_pageCount := pageCount st |}
  | PageButton i =>
      {| ev_first := Z.of_nat i * API_PAGE_SIZE; ev_rows := API_PAGE_SIZE;
         ev_page := Z.of_nat i; ev_pageCount := pageCount st |}
  end.

(** A click reaches [onPageChange] when the button exists and is
    enabled. *)
Definition click (c : Control) (st : State) : State :=
  if rendered c st && negb (disabled c st)
  then onPageChange (event_of c st) st
  else st.

End CustomTable.

(** ** [src/src/ArtworkTable.tsx], last revision: loading and showing
       a page, and the checkboxes of the table *)

Module ArtworkTablePage.
Import ArtworkTable.

(** The setters of the navigation path.  The history [calls] has no
    entry for these three. *)
Definition setArtworks (a : list Artwork) (st : State) : State :=
  {| artworks := a; loading := loading st;
     totalRecords := totalRecords st; first := first st;
     selectedIds := selectedIds st; tempRows := tempRows st;
     bulkSelectLoading := bulkSelectLoading st;
     overlayVisible := overlayVisible st;
     calls := calls st |}.

Definition setLoading (b : bool) (st : State) : State :=
  {| artworks := artworks st; loading := b;
     totalRecords := totalRecords st; first := first st;
     selectedIds := selectedIds st; tempRows := tempRows st;
     bulkSelectLoading := bulkSelectLoading st;
     overlayVisible := overlayVisible st;
     calls := calls st |}.

Definition setTotalRecords (z : Z) (st : State) : State :=
  {| artworks := artworks st; loading := loading st;
     totalRecords := z; first := first st;
     selectedIds := selectedIds st; tempRows := tempRows st;
     bulkSelectLoading := bulkSelectLoading st;
     overlayVisible := overlayVisible st;
     calls := calls st |}.

(** The object built from an item by [data.data.map], lines 585-590. *)
Definition to_artwork (item : ApiItem) : Artwork :=
  {| id := item_id item;
     api_link := pretty (item_id item);
     title := item_title item;
     artwork_type_title :=
       match item_artwork_type_title item with
       | Some s => if decide (s = "") then "N/A" else s
       | None => "N/A"
       end |}.

(** [fetchData], lines 580-599. *)
Definition fetchData (net : Network) (page : nat) (st : State) : State :=
  let st1 := record (CallFetch page) (setLoading true st) in
  match net page with
  | Fulfilled body =>
      setLoading false
        (setTotalRecords (pagination_total body)
           (setArtworks (to_artwork <$> data body) st1))
  | Rejected => setLoading false (consoleError st1)
  end.

(** [Math.floor(first / API_PAGE_SIZE) + 1], line 602.  Page numbers
    are [nat]: a number below 0, which only a negative offset gives,
    is sent as 0. *)
Definition apiPage (st : State) : nat :=
  Z.to_nat (first st / API_PAGE_SIZE + 1).

(** The effect of lines 601-604, run for the state [st]. *)
Definition effect (net : Network) (st : State) : State :=
  fetchData net (apiPage st) st.

(** The component renders again in the state [after] that a handler
    has left of the state [before]: the effect has [first] among its
    dependencies and runs when the handler has changed it. *)
Definition render_after (net : Network) (before after : State) : State :=
  if first after =? first before then after else effect net after.

(** A handler [h] runs and the component renders again. *)
Definition then_render (net : Network) (h : State → State) (st : State)
    : State :=
  render_after net st (h st).

(** [selectedArtworks], line 611: the rows of the page whose box is
    checked. *)
Definition selectedArtworks (st : State) : list Artwork :=
  filter (λ artwork, JSSet.has (selectedIds st) (id artwork) = true)
    (artworks st).

(** [onDataTableSelectionChange], lines 613-623; [value] is [e.value]. *)
Definition onDataTableSelectionChange (value : list Artwork) (st : State)
    : State :=
  let currentPageArtworkIds := JSSet.from (id <$> artworks st) in
  let updatedSelectedIds :=
    JSSet.from
      (filter (λ x, negb (JSSet.has currentPageArtworkIds x) = true)
         (selectedIds st)) in
  setSelectedIds (foldl JSSet.add updatedSelectedIds (id <$> value)) st.

(** The "Clear All Selections" button, line 821. *)
Definition clearAll (st : State) : State := setSelectedIds JSSet.empty st.

(** The [max] of the number input, line 729. *)
Definition rows_max (st : State) : Z := Z.min (totalRecords st) 1000.

End ArtworkTablePage.

(** ** [src/unnamed/part_000]: loading and showing a page *)

Module CustomTablePage.
Import CustomTable.

Definition setArtworks (a : list Artwork) (st : State) : State :=
  {| artworks := a; loading := loading st;
     totalRecords := totalRecords st; first := first st;
     selectedArtworks := selectedArtworks st;
     showOverlay := showOverlay st; tempRows := tempRows st |}.

Definition setTotalRecords (z : Z) (st : State) : State :=
  {| artworks := artworks st; loading := loading st;
     totalRecords := z; first := first st;
     selectedArtworks := selectedArtworks st;
     showOverlay := showOverlay st; tempRows := tempRows st |}.

(** [fetchData], lines 33-52. *)
Definition fetchData (net : Network) (page : nat) (st : State) : State :=
  let st1 := setLoading true st in
  match net page with
  | Fulfilled body =>
      setLoading false
        (setTotalRecords (pagination_total body)
           (setArtworks (to_artwork <$> data body) st1))
  | Rejected => setLoading false st1
  end.

(** [Math.floor(first / API_PAGE_SIZE) + 1], line 55; a number below 0
    is sent as 0. *)
Definition apiPage (st : State) : nat :=
  Z.to_nat (first st / API_PAGE_SIZE + 1).

(** The effect of lines 54-57, run for the state [st]. *)
Definition effect (net : Network) (st : State) : State :=
  fetchData net (apiPage st) st.

(** The component renders again in the state [after] that a handler
    has left of the state [before]: the effect runs when the handler
    has changed [first]. *)
Definition render_after (net : Network) (before after : State) : State :=
  if first after =? first before then after else effect net after.

(** A handler [h] runs and the component renders again. *)
Definition then_render (net : Network) (h : State → State) (st : State)
    : State :=
  render_after net st (h st).

(** The rows, in the order of the pages, that the pages [page],
    [page + 1], ..., [maxPages] hold when page [p] has the body
    [resp p]. *)
Definition rows_from (resp : nat → PageResponse) (page : nat) (maxPages : Z)
    : list Artwork :=
  concat ((λ p, to_artwork <$> data (resp p))
            <$> seq page (Z.to_nat (maxPages + 1 - Z.of_nat page))).

(** "Showing [from] to [to] of [totalRecords] results", line 279. *)
Definition showing_from (st : State) : Z := first st + 1.
Definition showing_to (st : State) : Z :=
  Z.min (first st + API_PAGE_SIZE) (totalRecords st).

(** The page button with the highlight, line 299:
    [currentPage === i]. *)
Definition highlighted (i : nat) (st : State) : bool :=
  currentPage st =? Z.of_nat i.

End CustomTablePage.

(** ** [src/src/ArtworkTable.tsx], first revision (lines 1-279; the
       second, lines 280-540, has the same code) *)

Module FirstRevision.

(** The [useState] cells and the visibility of the overlay panel. *)
Record State : Type := {
  artworks : list Artwork;
  loading : bool;
  totalRecords : Z;
  first : Z;
  selectedArtworks : list Artwork;
  tempRows : option Z;
  overlayVisible : bool
}.

Definition setSelectedArtworks (a : list Artwork) (st : State) : State :=
  {| artworks := artworks st; loading := loading st;
     totalRecords := totalRecords st; first := first st;
     selectedArtworks := a; tempRows := tempRows st;
     overlayVisible := overlayVisible st |}.

(** [onDataTableSelectionChange], lines 74-97; [value] is [e.value]. *)
Definition onDataTableSelectionChange (value : list Artwork) (st : State)
    : State :=
  let currentArtworksIds := JSSet.from (id <$> artworks st) in
  let updatedGlobalSelectedArtworks :=
    filter (λ item, negb (JSSet.has currentArtworksIds (id item)) = true)
      (selectedArtworks st) in
  let newlySelectedOnPage := value in
  setSelectedArtworks (updatedGlobalSelectedArtworks ++ newlySelectedOnPage) st.

(** [selectedArtworkIds], line 100. *)
Definition selectedArtworkIds (st : State) : list Z :=
  JSSet.from (id <$> selectedArtworks st).

End FirstRevision.

(** ** A backing collection behind the API *)

(** The ids of a list of items, in order. *)
Definition ids (items : list ApiItem) : list Z := item_id <$> items.

(** Page [p] (from 1) of a collection served twelve items a page. *)
Definition page_of (coll : list ApiItem) (p : nat) : list ApiItem :=
  take (Z.to_nat API_PAGE_SIZE) (drop (Z.to_nat API_PAGE_SIZE * (p - 1)) coll).

(** An API that serves [coll] and never fails. *)
Definition collection_net (coll : list ApiItem) : Network :=
  λ p, Fulfilled {| data := page_of coll p;
                    pagination_total := Z.of_nat (length coll) |}.

(** Every promise of every batch settles, once, in some order. *)
Definition every_order (sched : nat → nat → list nat) : Prop :=
  ∀ j n, sched j n ≡ₚ seq 0 n.

(** The responses come back in the order of the requests. *)
Definition in_request_order (j n : nat) : list nat := seq 0 n.

(** The responses come back in the opposite order. *)
Definition in_reverse_order (j n : nat) : list nat := reverse (seq 0 n).

(** ** The range of offsets *)

(** The offsets from 0 to the first row of the last page:
    [[0, max(0, pageCount - 1) * pageSize]]. *)
Definition offset_in_range (offset total : Z) : Prop :=
  0 ≤ offset ≤ Z.max 0 (ceil_div total API_PAGE_SIZE - 1) * API_PAGE_SIZE.

(** ** Sample inputs *)

Definition sample_artwork (n : Z) : Artwork :=
  {| id := n; api_link := pretty n; title := "Untitled";
     artwork_type_title := "N/A" |}.

(** A state of the hand-written table: [offset] is the first row
    shown, the artworks of [selected] are selected. *)
Definition sample_table (total offset : Z) (selected : list Z)
    (rows : option Z) : CustomTable.State :=
  {| CustomTable.artworks := [];
     CustomTable.loading := false;
     CustomTable.totalRecords := total;
     CustomTable.first := offset;
     CustomTable.selectedArtworks := sample_artwork <$> selected;
     CustomTable.showOverlay := true;
     CustomTable.tempRows := rows |}.

Definition sample_item (n : nat) : ApiItem :=
  {| item_id := 100 + Z.of_nat n;
     item_title := "Untitled";
     item_artwork_type_title := None |}.

(** Items with the ids 101, 102, ... *)
Definition sample_collection (n : nat) : list ApiItem :=
  sample_item <$> seq 1 n.

(** A state with two rows selected by hand, showing the third page. *)
Definition sample_state (total : Z) (rows : option Z) : ArtworkTable.State :=
  {| ArtworkTable.artworks := [];
     ArtworkTable.loading := false;
     ArtworkTable.totalRecords := total;
     ArtworkTable.first := 24;
     ArtworkTable.selectedIds := [7; 8];
     ArtworkTable.tempRows := rows;
     ArtworkTable.bulkSelectLoading := false;
     ArtworkTable.overlayVisible := true;
     ArtworkTable.calls := [] |}.

(** The same state with the artworks of the given ids on the page
    shown and the given selection. *)
Definition sample_page (page selected : list Z) : ArtworkTable.State :=
  {| ArtworkTable.artworks := sample_artwork <$> page;
     ArtworkTable.loading := false;
     ArtworkTable.totalRecords := 30;
     ArtworkTable.first := 24;
     ArtworkTable.selectedIds := selected;
     ArtworkTable.tempRows := None;
     ArtworkTable.bulkSelectLoading := false;
     ArtworkTable.overlayVisible := true;
     ArtworkTable.calls := [] |}.

(** An event that asks for the row [offset]. *)
Definition sample_event (offset : Z) : PaginatorPageState :=
  {| ev_first := offset; ev_rows := API_PAGE_SIZE;
     ev_page := offset / API_PAGE_SIZE; ev_pageCount := 5 |}.

(** Thirty items behind an API whose second page fails. *)
Definition second_page_fails : Network :=
  λ p, if decide (p = 2%nat) then Rejected
       else collection_net (sample_collection 30) p.

(** The body that the API sends for page [p] of thirty items. *)
Definition sample_response (p : nat) : PageResponse :=
  {| data := page_of (sample_collection 30) p; pagination_total := 30 |}.

(** Nothing in flight, 24 rows asked for. *)
Definition idle_system : ArtworkTable.System :=
  {| ArtworkTable.ui := sample_state 30 (Some 24); ArtworkTable.runs := [] |}.

(** [applyRowsPerPageAndSelect] is called for 24 rows and, while that
    run waits for pages 1 and 2, called again for 1 row. *)
Definition overlapping_system : ArtworkTable.System :=
  ArtworkTable.start
    (ArtworkTable.step (ArtworkTable.start idle_system)
       (ArtworkTable.EditRows (Some 1))).

(** The rows that a table shows at the offset [offset] of a
    collection. *)
Definition rows_at (to_row : ApiItem → Artwork) (coll : list ApiItem)
    (offset : Z) : list Artwork :=
  to_row <$> take (Z.to_nat API_PAGE_SIZE) (drop (Z.to_nat offset) coll).

(** A state of the first revision that shows the artworks of [page]
    with the artworks of [selected] selected. *)
Definition sample_first (page selected : list Z) : FirstRevision.State :=
  {| FirstRevision.artworks := sample_artwork <$> page;
     FirstRevision.loading := false;
     FirstRevision.totalRecords := 30;
     FirstRevision.first := 24;
     FirstRevision.selectedArtworks := sample_artwork <$> selected;
     FirstRevision.tempRows := None;
     FirstRevision.overlayVisible := true |}.

(** A state of the last revision before any page has loaded, ten rows
    asked for. *)
Definition sample_unloaded : ArtworkTable.State := sample_state 0 (Some 10).

(** A page of the last revision showing the artworks with the ids 1,
    2 and 3, with 2 and 9 selected. *)
Definition sample_rows : ArtworkTable.State := sample_page [1; 2; 3] [9; 2].

(** * Properties *)

(** ** Facts about [JSSet] *)

Section jsset_facts.
Implicit Types (s l : list Z) (x y : Z).

Lemma has_true s x : JSSet.has s x = true ↔ x ∈ s.
Proof. unfold JSSet.has. by rewrite bool_decide_eq_true. Qed.

Lemma has_false s x : JSSet.has s x = false ↔ x ∉ s.
Proof. unfold JSSet.has. by rewrite bool_decide_eq_false. Qed.

Lemma has_ext s1 s2 x :
  (x ∈ s1 ↔ x ∈ s2) → JSSet.has s1 x = JSSet.has s2 x.
Proof. intros H. unfold JSSet.has. by apply bool_decide_ext. Qed.

Lemma elem_of_add s x y : y ∈ JSSet.add s x ↔ y ∈ s ∨ y = x.
Proof.
  unfold JSSet.add. destruct (JSSet.has s x) eqn:E.
  - apply has_true in E. split; [by left|]. by intros [?| ->].
  - rewrite elem_of_app, list_elem_of_singleton. tauto.
Qed.

Lemma elem_of_foldl_add l s y : y ∈ foldl JSSet.add s l ↔ y ∈ s ∨ y ∈ l.
Proof.
  revert s. induction l as [|x l IH]; intros s; simpl.
  - rewrite elem_of_nil. tauto.
  - rewrite IH, elem_of_add, elem_of_cons. tauto.
Qed.

Lemma elem_of_from l y : y ∈ JSSet.from l ↔ y ∈ l.
Proof.
  unfold JSSet.from. rewrite elem_of_foldl_add.
  unfold JSSet.empty. rewrite elem_of_nil. tauto.
Qed.

(** Adding fresh, pairwise different elements appends them. *)
Lemma foldl_add_fresh l s : NoDup (s ++ l) → foldl JSSet.add s l = s ++ l.
Proof.
  revert s. induction l as [|x l IH]; intros s Hnd; simpl.
  - by rewrite app_nil_r.
  - assert (x ∉ s) as Hx.
    { apply NoDup_app in Hnd as (_ & Hdisj & _).
      intros Hin. apply (Hdisj x Hin). by left. }
    unfold JSSet.add at 2. apply has_false in Hx. rewrite Hx.
    rewrite IH; [by rewrite <- app_assoc|].
    by rewrite <- app_assoc.
Qed.

Lemma from_NoDup l : NoDup l → JSSet.from l = l.
Proof. intros H. unfold JSSet.from, JSSet.empty. by rewrite foldl_add_fresh. Qed.

Lemma foldl_add_app l1 l2 s :
  foldl JSSet.add s (l1 ++ l2) = foldl JSSet.add (foldl JSSet.add s l1) l2.
Proof. apply foldl_app. Qed.

End jsset_facts.

(** ** Facts about [Promise_all] *)

Section promise_facts.
Context {A : Type}.
Implicit Types (promises : list (Settled A)) (values : list (option A)).

Lemma Promise_all_run_rejected arrivals promises values k :
  k ∈ arrivals → promises !! k = Some Rejected →
  Promise_all_run arrivals promises values = Some Rejected.
Proof.
  intros Hin Hk. revert values.
  induction arrivals as [|j rest IH]; intros values; [by inversion Hin|].
  simpl. destruct (decide (j = k)) as [->|Hne].
  - by rewrite Hk.
  - assert (k ∈ rest) as Hrest.
    { apply elem_of_cons in Hin as [?|?]; [congruence|done]. }
    destruct (promises !! j) as [[v|]|]; auto.
Qed.

Lemma Promise_all_run_fulfilled arrivals (vs : list A) values :
  length values = length vs →
  (∀ k v, values !! k = Some (Some v) → vs !! k = Some v) →
  (∀ k, (k < length vs)%nat →
        k ∈ arrivals ∨ ∃ v, values !! k = Some (Some v)) →
  Promise_all_run arrivals (Fulfilled <$> vs) values = Some (Fulfilled vs).
Proof.
  revert values.
  induction arrivals as [|j rest IH]; intros values Hlen Hok Hall; simpl.
  - assert (mapM (λ v, v) values = Some vs) as ->; [|done].
    apply mapM_Some. apply Forall2_same_length_lookup. split; [done|].
    intros k o v Ho Hv.
    destruct (Hall k) as [Hin|[w Hw]].
    + by eapply lookup_lt_Some.
    + by inversion Hin.
    + rewrite Ho in Hw. injection Hw as ->.
      apply Hok in Ho. congruence.
  - rewrite list_lookup_fmap.
    destruct (vs !! j) as [v|] eqn:Hj; simpl.
    + assert (j < length values)%nat as Hjlt.
      { rewrite Hlen. by eapply lookup_lt_Some. }
      apply IH.
      * by rewrite length_insert.
      * intros k w. destruct (decide (k = j)) as [->|Hne].
        -- rewrite list_lookup_insert_eq by done. congruence.
        -- rewrite list_lookup_insert_ne by done. apply Hok.
      * intros k Hk. destruct (decide (k = j)) as [->|Hne].
        -- right. exists v. by rewrite list_lookup_insert_eq.
        -- destruct (Hall k Hk) as [Hin|[w Hw]].
           ++ left. apply elem_of_cons in Hin as [?|?]; [congruence|done].
           ++ right. exists w. by rewrite list_lookup_insert_ne.
    + apply IH; [done..|].
      intros k Hk. destruct (Hall k Hk) as [Hin|?]; [|by right].
      left. apply elem_of_cons in Hin as [->|?]; [|done].
      apply lookup_ge_None in Hj. lia.
Qed.

Lemma mapM_value_of_Some promises vs :
  mapM value_of promises = Some vs → promises = Fulfilled <$> vs.
Proof.
  rewrite mapM_Some. induction 1 as [|p v ps vs' Hp _ IH]; [done|].
  simpl. f_equal; [by destruct p; simplify_eq/=|done].
Qed.

Lemma mapM_value_of_None promises :
  mapM value_of promises = None →
  ∃ k, (k < length promises)%nat ∧ promises !! k = Some Rejected.
Proof.
  rewrite mapM_None. intros Hex. apply Exists_exists in Hex as (p & Hin & Hp).
  apply list_elem_of_lookup in Hin as [k Hk]. exists k.
  split; [by eapply lookup_lt_Some|]. by destruct p.
Qed.

(** [Promise.all] does not depend on the order in which the promises
    settle. *)
Lemma Promise_all_any_order arrivals promises :
  arrivals ≡ₚ seq 0 (length promises) →
  Promise_all arrivals promises = Some (all_settled promises).
Proof.
  intros Hperm. unfold Promise_all, all_settled.
  destruct (mapM value_of promises) as [vs|] eqn:E.
  - apply mapM_value_of_Some in E as ->.
    apply Promise_all_run_fulfilled.
    + by rewrite length_replicate, length_fmap.
    + intros k v Hk. apply lookup_replicate in Hk as [? _]. done.
    + intros k Hk. left. rewrite Hperm. apply elem_of_seq.
      rewrite length_fmap. lia.
  - apply mapM_value_of_None in E as (k & Hlt & Hk).
    apply Promise_all_run_rejected with k; [|done].
    rewrite Hperm. apply elem_of_seq. lia.
Qed.

End promise_facts.

(** ** Facts about the bulk selection of [ArtworkTable] *)

Section bulk_facts.
Import ArtworkTable.

Lemma issue_calls batch st :
  calls (issue batch st) = calls st ++ (CallFetch <$> batch).
Proof.
  revert st. induction batch as [|p batch IH]; intros st; simpl.
  - by rewrite app_nil_r.
  - unfold issue in *. simpl. rewrite IH. simpl. by rewrite <- app_assoc.
Qed.

Lemma issue_frame batch st :
  selectedIds (issue batch st) = selectedIds st
  ∧ first (issue batch st) = first st
  ∧ tempRows (issue batch st) = tempRows st
  ∧ totalRecords (issue batch st) = totalRecords st
  ∧ bulkSelectLoading (issue batch st) = bulkSelectLoading st
  ∧ loading (issue batch st) = loading st
  ∧ artworks (issue batch st) = artworks st.
Proof.
  revert st. induction batch as [|p batch IH]; intros st; [done|].
  unfold issue in *. simpl. by destruct (IH (record (CallFetch p) st)) as (-> & -> & -> & -> & -> & -> & ->).
Qed.

Lemma issue_app b1 b2 st : issue (b1 ++ b2) st = issue b2 (issue b1 st).
Proof. unfold issue. apply foldl_app. Qed.

(** [Promise.all] in the loop may be replaced by [all_settled]. *)
Lemma run_batches_any_order fuel net sched b st :
  every_order sched →
  run_batches fuel net sched b st
  = (λ rf, (rf.1, issue rf.2 st)) <$> batches_result fuel net b.
Proof.
  intros Hsched. revert b st.
  induction fuel as [|fuel IH]; intros b st; simpl;
    destruct (loop_head b) as [|batch]; try done.
  rewrite Promise_all_any_order
    by (rewrite length_fmap; apply Hsched).
  destruct (all_settled (net <$> batch)) as [results|]; [|done].
  rewrite IH.
  destruct (batches_result fuel net (after_batch b results)) as [[r f]|];
    [|done].
  simpl. by rewrite issue_app.
Qed.

Lemma loop_head_Await b batch :
  loop_head b = Await batch →
  (i b < length (pageNumbers b))%nat
  ∧ selectedCount b < totalToSelect b
  ∧ batch = take CONCURRENT_REQUESTS (drop (i b) (pageNumbers b)).
Proof.
  unfold loop_head. case_bool_decide; [|done].
  destruct (selectedCount b >=? totalToSelect b) eqn:E; [done|].
  intros [= <-]. split_and!; [done|lia|done].
Qed.

Lemma loop_head_Leave b :
  loop_head b = Leave →
  (length (pageNumbers b) ≤ i b)%nat
  ∨ totalToSelect b ≤ selectedCount b.
Proof.
  unfold loop_head. case_bool_decide; [|lia].
  destruct (selectedCount b >=? totalToSelect b) eqn:E; [|done].
  intros _. right. lia.
Qed.

(** The loop ends within as many batches as there are pages. *)
Lemma batches_result_total fuel net b :
  (length (pageNumbers b) ≤ i b + fuel)%nat →
  is_Some (batches_result fuel net b).
Proof.
  revert b. induction fuel as [|fuel IH]; intros b Hfuel; simpl;
    destruct (loop_head b) as [|batch] eqn:Hhead; try done.
  - apply loop_head_Await in Hhead as (? & _). lia.
  - destruct (all_settled (net <$> batch)) as [results|]; [|done].
    destruct (IH (after_batch b results)) as [[r f] ->]; [|done].
    unfold after_batch, CONCURRENT_REQUESTS. simpl. lia.
Qed.

Lemma all_settled_Fulfilled (net : Network) batch results :
  all_settled (net <$> batch) = Fulfilled results →
  ∀ p, p ∈ batch → net p ≠ Rejected.
Proof.
  unfold all_settled.
  destruct (mapM value_of (net <$> batch)) as [vs|] eqn:E; [|done].
  intros _ p Hin Hp. apply mapM_value_of_Some in E.
  assert (Rejected ∈ net <$> batch) as Hrej.
  { rewrite <- Hp. by apply list_elem_of_fmap_2. }
  rewrite E in Hrej. apply list_elem_of_fmap in Hrej as (? & ? & _). done.
Qed.

Lemma all_settled_Rejected (net : Network) batch :
  all_settled (net <$> batch) = Rejected →
  ∃ p, p ∈ batch ∧ net p = Rejected.
Proof.
  unfold all_settled.
  destruct (mapM value_of (net <$> batch)) as [vs|] eqn:E; [done|].
  intros _. apply mapM_value_of_None in E as (k & _ & Hk).
  rewrite list_lookup_fmap in Hk.
  destruct (batch !! k) as [p|] eqn:Hp; [|done].
  exists p. split; [by eapply list_elem_of_lookup_2|]. by simplify_eq/=.
Qed.

(** The [try] block ends in the [catch] exactly when one of the
    requests made was rejected. *)
Lemma batches_result_rejected fuel net b r fetched :
  batches_result fuel net b = Some (r, fetched) →
  r = Rejected ↔ ∃ p, p ∈ fetched ∧ net p = Rejected.
Proof.
  revert b r fetched.
  induction fuel as [|fuel IH]; intros b r fetched; simpl;
    destruct (loop_head b) as [|batch]; try done.
  1,2: intros [= <- <-]; split; [done|]; by intros (p & Hin & _); inversion Hin.
  destruct (all_settled (net <$> batch)) as [results|] eqn:Hall.
  - destruct (batches_result fuel net (after_batch b results))
      as [[r' f']|] eqn:Hrec; [|done].
    intros [= <- <-]. rewrite (IH _ _ _ Hrec). split.
    + intros (p & Hin & Hp). exists p. split; [|done].
      apply elem_of_app. by right.
    + intros (p & Hin & Hp). exists p. split; [|done].
      apply elem_of_app in Hin as [Hin|Hin]; [|done].
      by destruct (all_settled_Fulfilled _ _ _ Hall p Hin).
  - intros [= <- <-]. split; [|done]. intros _.
    by apply all_settled_Rejected.
Qed.

(** The inner loop adds the ids of the leading items that are still
    missing, and counts them. *)
Lemma take_items_spec total items s c :
  let n := Z.to_nat (total - c) in
  take_items total items (s, c)
  = (foldl JSSet.add s (ids (take n items)),
     c + Z.of_nat (length (take n items))).
Proof.
  revert s c. induction items as [|item rest IH]; intros s c n; simpl.
  - subst n. rewrite take_nil. simpl. f_equal. lia.
  - destruct (c >=? total) eqn:E.
    + assert (n = 0%nat) as -> by lia. simpl. f_equal. lia.
    + assert (n = S (Z.to_nat (total - (c + 1)))) as -> by lia.
      rewrite IH. simpl. f_equal. lia.
Qed.

Lemma take_results_spec total results s c :
  let n := Z.to_nat (total - c) in
  let items := take n (concat (data <$> results)) in
  take_results total results (s, c)
  = (foldl JSSet.add s (ids items), c + Z.of_nat (length items)).
Proof.
  revert s c. induction results as [|d rest IH]; intros s c n items; simpl.
  - subst items. simpl. rewrite take_nil. simpl. f_equal. lia.
  - destruct (c >=? total) eqn:E.
    + subst items. assert (n = 0%nat) as -> by lia. simpl. f_equal. lia.
    + rewrite take_items_spec, IH. fold n.
      subst items. simpl. rewrite take_app. unfold ids.
      rewrite fmap_app, foldl_app, length_app.
      assert (Z.to_nat (total - (c + Z.of_nat (length (take n (data d)))))
              = (n - length (data d))%nat) as ->.
      { rewrite length_take. subst n. lia. }
      f_equal. rewrite Nat2Z.inj_add, Z.add_assoc. reflexivity.
Qed.

Lemma all_settled_responses (resp : nat → PageResponse) batch :
  all_settled ((λ p, Fulfilled (resp p)) <$> batch)
  = Fulfilled (resp <$> batch).
Proof.
  unfold all_settled.
  assert (mapM value_of ((λ p, Fulfilled (resp p)) <$> batch)
          = Some (resp <$> batch)) as ->; [|done].
  apply mapM_Some. induction batch; simpl; by constructor.
Qed.

(** When no request fails, the loop builds the set of the ids of the
    first [totalToSelect] items of the pages listed in
    [pageNumbers], taken page after page. *)
Lemma batches_result_fulfilled fuel (resp : nat → PageResponse) b :
  (length (pageNumbers b) ≤ i b + fuel)%nat →
  ∃ fetched,
    batches_result fuel (λ p, Fulfilled (resp p)) b
    = Some (Fulfilled
              (foldl JSSet.add (newSelectedIds b)
                 (ids (take (Z.to_nat (totalToSelect b - selectedCount b))
                         (concat (data <$> (resp <$> drop (i b) (pageNumbers b))))))),
            fetched).
Proof.
  revert b. induction fuel as [|fuel IH]; intros b Hfuel; simpl;
    destruct (loop_head b) as [|batch] eqn:Hhead.
  1,3: exists []; do 3 f_equal;
    apply loop_head_Leave in Hhead as [Hi|Hc];
    [ rewrite drop_ge by done; simpl; by rewrite take_nil
    | by replace (Z.to_nat (totalToSelect b - selectedCount b))
           with 0%nat by lia ].
  - apply loop_head_Await in Hhead as (? & _). lia.
  - apply loop_head_Await in Hhead as (Hi & Hc & Hbatch).
    rewrite all_settled_responses.
    destruct (IH (after_batch b (resp <$> batch))) as [fetched ->].
    { unfold after_batch, CONCURRENT_REQUESTS. simpl. lia. }
    eexists. do 3 f_equal. unfold after_batch. simpl.
    rewrite take_results_spec. simpl.
    rewrite <- foldl_app. f_equal. unfold ids. rewrite <- fmap_app. f_equal.
    symmetry.
    rewrite <- (take_drop CONCURRENT_REQUESTS (drop (i b) (pageNumbers b))) at 1.
    rewrite !fmap_app, concat_app, take_app, <- Hbatch.
    rewrite drop_drop. f_equal. f_equal. rewrite length_take. lia.
Qed.

(** A run with a positive count: how the [try] block ends decides
    between the two ways out. *)
Lemma apply_positive net sched st K :
  every_order sched → tempRows st = Some K → 0 < K →
  ∃ r,
    batches_result (length (pageNumbers (bulk_init K st))) net (bulk_init K st)
    = Some (r, pages_requested net st)
    ∧ applyRowsPerPageAndSelect net sched st
      = Some (let st2 := issue (pages_requested net st)
                           (setBulkSelectLoading true st) in
              match r with
              | Fulfilled ids => finish_ok ids st2
              | Rejected => finish_error st2
              end).
Proof.
  intros Hsched HK Hpos.
  unfold applyRowsPerPageAndSelect, pages_requested. rewrite HK.
  change (default 0 (Some K)) with K. cbv zeta.
  destruct (K <=? 0) eqn:E; [lia|].
  rewrite run_batches_any_order by done.
  destruct (batches_result_total (length (pageNumbers (bulk_init K st)))
              net (bulk_init K st)) as [[r fetched] Hres]; [simpl; lia|].
  rewrite Hres. simpl. exists r. split; [done|]. by destruct r.
Qed.

End bulk_facts.

(** ** Facts about a backing collection *)

Section collection_facts.
Import ArtworkTable.
Variable coll : list ApiItem.

Lemma ceil_div_page a : a ≤ API_PAGE_SIZE * ceil_div a API_PAGE_SIZE.
Proof.
  unfold ceil_div, API_PAGE_SIZE.
  pose proof (Z.div_mod (a + 12 - 1) 12).
  pose proof (Z.mod_pos_bound (a + 12 - 1) 12). lia.
Qed.

Lemma ceil_div_nonneg a : 0 ≤ a → 0 ≤ ceil_div a API_PAGE_SIZE.
Proof.
  intros. unfold ceil_div, API_PAGE_SIZE. apply Z.div_pos; lia.
Qed.

Lemma take_min n (l : list ApiItem) : take n l = take (n `min` length l) l.
Proof.
  destruct (decide (n ≤ length l)%nat).
  - by rewrite Nat.min_l.
  - rewrite Nat.min_r by lia. by rewrite !take_ge by lia.
Qed.

(** The first [n] pages, one after the other, are the first [12 n]
    items. *)
Lemma pages_concat n :
  concat (page_of coll <$> (S <$> seq 0 n))
  = take (Z.to_nat API_PAGE_SIZE * n) coll.
Proof.
  induction n as [|n IH].
  - by rewrite Nat.mul_0_r.
  - rewrite seq_S, !fmap_app, concat_app, IH. simpl.
    rewrite app_nil_r. unfold page_of.
    replace (S n - 1)%nat with n by lia.
    rewrite take_take_drop. f_equal. unfold API_PAGE_SIZE. lia.
Qed.

(** On a collection that is served without failure and whose size is
    the [totalRecords] of the state, a run with a positive count
    ends with the set of the ids of the first [K] items. *)
Lemma apply_on_collection sched st K :
  every_order sched →
  totalRecords st = Z.of_nat (length coll) →
  tempRows st = Some K → 0 < K →
  applyRowsPerPageAndSelect (collection_net coll) sched st
  = Some (finish_ok (JSSet.from (ids (take (Z.to_nat K) coll)))
            (issue (pages_requested (collection_net coll) st)
               (setBulkSelectLoading true st))).
Proof.
  intros Hsched Htotal HK Hpos.
  destruct (apply_positive (collection_net coll) sched st K)
    as (r & Hres & ->); [done..|].
  do 2 f_equal.
  set (resp := λ p, {| data := page_of coll p;
                       pagination_total := Z.of_nat (length coll) |}).
  destruct (batches_result_fulfilled
              (length (pageNumbers (bulk_init K st))) resp (bulk_init K st))
    as [fetched Hful]; [simpl; lia|].
  change (λ p, Fulfilled (resp p)) with (collection_net coll) in Hful.
  rewrite Hres in Hful. injection Hful as -> _. simpl.
  unfold JSSet.from. do 3 f_equal.
  rewrite drop_0, <- list_fmap_compose.
  change (data ∘ resp) with (page_of coll).
  rewrite pages_concat, Z.sub_0_r, take_take, Htotal.
  rewrite take_min, (take_min (Z.to_nat K)). f_equal.
  pose proof (ceil_div_page K). pose proof (ceil_div_page (Z.of_nat (length coll))).
  pose proof (ceil_div_nonneg K). pose proof (ceil_div_nonneg (Z.of_nat (length coll))).
  unfold API_PAGE_SIZE in *. lia.
Qed.

Lemma ids_take_NoDup n : NoDup (ids coll) → NoDup (ids (take n coll)).
Proof.
  intros Hnd. unfold ids. rewrite fmap_take.
  eapply sublist_NoDup; [exact Hnd|]. apply sublist_take.
Qed.

End collection_facts.

(** ** Bulk selection in [ArtworkTable] *)

Section bulk_claims.
Import ArtworkTable.

Lemma every_order_reverse : every_order in_reverse_order.
Proof. intros j n. unfold in_reverse_order. apply reverse_Permutation. Qed.

Lemma every_order_request : every_order in_request_order.
Proof. by intros j n. Qed.

(** Runs on sample collections: 20 of 50 items take pages 1 and 2 in
    one batch; 100 of 5 items give the 5; a count of 0 clears; 30 of
    100 items take pages 1 to 3 in one batch; 40 of 100 take a second
    batch with page 4. *)
Example twenty_of_fifty :
  selectedIds <$> applyRowsPerPageAndSelect
    (collection_net (sample_collection 50)) in_reverse_order
    (sample_state 50 (Some 20))
  = Some (ids (take 20 (sample_collection 50)))
  ∧ pages_requested (collection_net (sample_collection 50))
      (sample_state 50 (Some 20)) = [1; 2]%nat.
Proof. split; reflexivity. Qed.

Example hundred_of_five :
  selectedIds <$> applyRowsPerPageAndSelect
    (collection_net (sample_collection 5)) in_reverse_order
    (sample_state 5 (Some 100))
  = Some [101; 102; 103; 104; 105].
Proof. reflexivity. Qed.

Example zero_clears :
  selectedIds <$> applyRowsPerPageAndSelect
    (collection_net (sample_collection 50)) in_reverse_order
    (sample_state 50 (Some 0))
  = Some []
  ∧ first <$> applyRowsPerPageAndSelect
      (collection_net (sample_collection 50)) in_reverse_order
      (sample_state 50 (Some 0))
    = Some 24.
Proof. split; reflexivity. Qed.

Example thirty_of_hundred :
  selectedIds <$> applyRowsPerPageAndSelect
    (collection_net (sample_collection 100)) in_reverse_order
    (sample_state 100 (Some 30))
  = Some (ids (take 30 (sample_collection 100)))
  ∧ pages_requested (collection_net (sample_collection 100))
      (sample_state 100 (Some 30)) = [1; 2; 3]%nat.
Proof. split; reflexivity. Qed.

Example forty_of_hundred :
  selectedIds <$> applyRowsPerPageAndSelect
    (collection_net (sample_collection 100)) in_reverse_order
    (sample_state 100 (Some 40))
  = Some (ids (take 40 (sample_collection 100)))
  ∧ pages_requested (collection_net (sample_collection 100))
      (sample_state 100 (Some 40)) = [1; 2; 3; 4]%nat.
Proof. split; reflexivity. Qed.

(** C1. When a page that the bulk selection requests fails, for a
    count [K > 0] and any order of arrival, the run ends, the
    selection is the one it started with, and [setSelectedIds] is
    not among the calls made: these are the loading flag, the
    requests, [console.error], the loading flag, [setFirst(0)] and
    [hide]. *)
Theorem bulk_failure_keeps_selection net sched st K p :
  every_order sched → tempRows st = Some K → 0 < K →
  p ∈ pages_requested net st → net p = Rejected →
  ∃ st',
    applyRowsPerPageAndSelect net sched st = Some st'
    ∧ selectedIds st' = selectedIds st
    ∧ calls st'
      = calls st ++ [CallSetBulkSelectLoading true]
        ++ (CallFetch <$> pages_requested net st)
        ++ [CallConsoleError; CallSetBulkSelectLoading false;
            CallSetFirst 0; CallHide]
    ∧ ∀ s, CallSetSelectedIds s ∉ drop (length (calls st)) (calls st').
Proof.
  intros Hsched HK Hpos Hp Hrej.
  destruct (apply_positive net sched st K) as (r & Hres & Happ); [done..|].
  assert (r = Rejected) as ->.
  { apply (batches_result_rejected _ _ _ _ _ Hres). by exists p. }
  eexists. split; [exact Happ|].
  assert (calls (finish_error (issue (pages_requested net st)
                   (setBulkSelectLoading true st)))
          = calls st ++ [CallSetBulkSelectLoading true]
            ++ (CallFetch <$> pages_requested net st)
            ++ [CallConsoleError; CallSetBulkSelectLoading false;
                CallSetFirst 0; CallHide]) as Hcalls.
  { simpl. rewrite issue_calls. simpl. by rewrite <- !app_assoc. }
  split_and!.
  - simpl. by destruct (issue_frame (pages_requested net st)
                          (setBulkSelectLoading true st)) as (-> & _).
  - exact Hcalls.
  - intros s. cbv zeta. rewrite Hcalls, drop_app_length.
    rewrite !elem_of_app, list_elem_of_fmap, !elem_of_cons, elem_of_nil.
    intros [[Heq|[]]|[(x & Heq & _)|Hin]]; [done..|].
    by destruct Hin as [?|[?|[?|[?|[]]]]].
Qed.

Lemma bulk_failure_keeps_selection_witness :
  ∃ st',
    applyRowsPerPageAndSelect second_page_fails in_reverse_order
      (sample_state 30 (Some 30)) = Some st'
    ∧ selectedIds st' = [7; 8]
    ∧ calls st'
      = [CallSetBulkSelectLoading true; CallFetch 1%nat; CallFetch 2%nat;
         CallFetch 3%nat; CallConsoleError; CallSetBulkSelectLoading false;
         CallSetFirst 0; CallHide]
    ∧ ∀ s, CallSetSelectedIds s ∉ drop 0 (calls st').
Proof.
  apply (bulk_failure_keeps_selection second_page_fails in_reverse_order
           (sample_state 30 (Some 30)) 30 2%nat).
  - exact every_order_reverse.
  - reflexivity.
  - lia.
  - vm_compute. repeat constructor.
  - reflexivity.
Defined.

(** The selection left by a bulk selection with a count [K >= 0] on a
    collection with pairwise different ids. *)
Lemma bulk_select_result coll sched st K :
  every_order sched → NoDup (ids coll) →
  totalRecords st = Z.of_nat (length coll) →
  tempRows st = Some K → 0 ≤ K →
  ∃ st',
    applyRowsPerPageAndSelect (collection_net coll) sched st = Some st'
    ∧ selectedIds st' = ids (take (Z.to_nat K) coll).
Proof.
  intros Hsched Hnd Htotal HK Hpos.
  destruct (decide (K = 0)) as [->|Hne].
  - unfold applyRowsPerPageAndSelect. rewrite HK. simpl. by eexists.
  - rewrite (apply_on_collection coll sched st K) by (done || lia).
    eexists. split; [done|]. simpl.
    by rewrite from_NoDup by by apply ids_take_NoDup.
Qed.

(** C2. On a collection with pairwise different ids, served without
    failure, whose size is the [totalRecords] of the state, a bulk
    selection with count [K >= 0] ends with exactly
    [min(K, totalRecords)] ids selected: the ids of the first [K]
    items and nothing else.  What was selected before the call has no
    part in it: from any other prior selection the call ends with the
    same selection. *)
Theorem bulk_select_size coll sched st K prior :
  every_order sched → NoDup (ids coll) →
  totalRecords st = Z.of_nat (length coll) →
  tempRows st = Some K → 0 ≤ K →
  ∃ st' st'',
    applyRowsPerPageAndSelect (collection_net coll) sched st = Some st'
    ∧ JSSet.size (selectedIds st') = Z.min K (totalRecords st)
    ∧ selectedIds st' = ids (take (Z.to_nat K) coll)
    ∧ applyRowsPerPageAndSelect (collection_net coll) sched
        (setSelectedIds prior st) = Some st''
    ∧ selectedIds st'' = selectedIds st'.
Proof.
  intros Hsched Hnd Htotal HK Hpos.
  destruct (bulk_select_result coll sched st K) as (st' & Hst' & Hsel);
    [done..|].
  destruct (bulk_select_result coll sched (setSelectedIds prior st) K)
    as (st'' & Hst'' & Hsel''); [done..|].
  exists st', st''. split_and!; [done| |done|done|congruence].
  rewrite Hsel. unfold JSSet.size, ids.
  rewrite length_fmap, length_take, Htotal. lia.
Qed.

Lemma sample_collection_NoDup : NoDup (ids (sample_collection 30)).
Proof. apply (bool_decide_unpack _). by vm_compute. Defined.

Lemma bulk_select_size_witness :
  ∃ st' st'',
    applyRowsPerPageAndSelect (collection_net (sample_collection 30))
      in_reverse_order (sample_state 30 (Some 20)) = Some st'
    ∧ JSSet.size (selectedIds st') = Z.min 20 30
    ∧ selectedIds st' = ids (take 20 (sample_collection 30))
    ∧ applyRowsPerPageAndSelect (collection_net (sample_collection 30))
        in_reverse_order
        (setSelectedIds [101; 250] (sample_state 30 (Some 20))) = Some st''
    ∧ selectedIds st'' = selectedIds st'.
Proof.
  apply (bulk_select_size (sample_collection 30) in_reverse_order
           (sample_state 30 (Some 20)) 20 [101; 250]).
  - exact every_order_reverse.
  - exact sample_collection_NoDup.
  - reflexivity.
  - reflexivity.
  - lia.
Defined.

(** C3. For a count [K > 0], on a collection as in C2, the set that
    the bulk selection builds lists the ids of the first
    [K' = min(K, totalRecords)] items in the order of the collection
    (page 1 from its first row on, then page 2, ...), the page that
    crosses [K'] giving its leading items only; two runs whose
    responses arrive in different orders build the same set. *)
Theorem bulk_select_canonical_prefix coll sched1 sched2 st K :
  every_order sched1 → every_order sched2 → NoDup (ids coll) →
  totalRecords st = Z.of_nat (length coll) →
  tempRows st = Some K → 0 < K →
  ∃ st1 st2,
    applyRowsPerPageAndSelect (collection_net coll) sched1 st = Some st1
    ∧ applyRowsPerPageAndSelect (collection_net coll) sched2 st = Some st2
    ∧ selectedIds st1
      = ids (take (Z.to_nat (Z.min K (totalRecords st))) coll)
    ∧ selectedIds st2 = selectedIds st1.
Proof.
  intros H1 H2 Hnd Htotal HK Hpos.
  rewrite !(apply_on_collection coll _ st K) by done.
  do 2 eexists. split_and!; [done|done| |done]. simpl.
  rewrite from_NoDup by by apply ids_take_NoDup.
  f_equal. rewrite Htotal.
  rewrite (take_min (Z.to_nat K)), (take_min (Z.to_nat (Z.min K _))).
  f_equal. lia.
Qed.

Lemma bulk_select_canonical_prefix_witness :
  ∃ st1 st2,
    applyRowsPerPageAndSelect (collection_net (sample_collection 30))
      in_request_order (sample_state 30 (Some 20)) = Some st1
    ∧ applyRowsPerPageAndSelect (collection_net (sample_collection 30))
        in_reverse_order (sample_state 30 (Some 20)) = Some st2
    ∧ selectedIds st1 = ids (take 20 (sample_collection 30))
    ∧ selectedIds st2 = selectedIds st1.
Proof.
  apply (bulk_select_canonical_prefix (sample_collection 30)
           in_request_order in_reverse_order (sample_state 30 (Some 20)) 20).
  - exact every_order_request.
  - exact every_order_reverse.
  - exact sample_collection_NoDup.
  - reflexivity.
  - reflexivity.
  - lia.
Defined.

(** C4. On a collection served without failure whose size is the
    [totalRecords] of the state, every id that a bulk selection with
    count [K >= 0] selects is selected by a bulk selection with
    count [K + 1] as well. *)
Theorem bulk_select_monotone coll sched1 sched2 st K :
  every_order sched1 → every_order sched2 →
  totalRecords st = Z.of_nat (length coll) → 0 ≤ K →
  ∃ st1 st2,
    applyRowsPerPageAndSelect (collection_net coll) sched1
      (setTempRows (Some K) st) = Some st1
    ∧ applyRowsPerPageAndSelect (collection_net coll) sched2
        (setTempRows (Some (K + 1)) st) = Some st2
    ∧ selectedIds st1 ⊆ selectedIds st2.
Proof.
  intros H1 H2 Htotal Hpos.
  rewrite (apply_on_collection coll sched2 _ (K + 1)) by (done || lia).
  destruct (decide (K = 0)) as [->|Hne].
  - do 2 eexists. split_and!; [done..|]. simpl. apply list_subseteq_nil.
  - rewrite (apply_on_collection coll sched1 _ K) by (done || lia).
    do 2 eexists. split_and!; [done..|]. simpl.
    intros x. rewrite !elem_of_from. unfold ids.
    rewrite !list_elem_of_fmap. intros (item & -> & Hin).
    exists item. split; [done|].
    apply elem_of_take in Hin as (j & Hj & Hlt).
    apply elem_of_take. exists j. split; [done|lia].
Qed.

Lemma bulk_select_monotone_witness :
  ∃ st1 st2,
    applyRowsPerPageAndSelect (collection_net (sample_collection 30))
      in_request_order (setTempRows (Some 12) (sample_state 30 None))
    = Some st1
    ∧ applyRowsPerPageAndSelect (collection_net (sample_collection 30))
        in_reverse_order (setTempRows (Some (12 + 1)) (sample_state 30 None))
      = Some st2
    ∧ selectedIds st1 ⊆ selectedIds st2.
Proof.
  apply (bulk_select_monotone (sample_collection 30)
           in_request_order in_reverse_order (sample_state 30 None) 12).
  - exact every_order_request.
  - exact every_order_reverse.
  - reflexivity.
  - lia.
Defined.

(** What a run leaves of the state it started from. *)
Lemma apply_frame net sched st st' :
  every_order sched →
  applyRowsPerPageAndSelect net sched st = Some st' →
  tempRows st' = tempRows st ∧ totalRecords st' = totalRecords st.
Proof.
  intros Hsched. destruct (tempRows st) as [K|] eqn:HK.
  - destruct (decide (0 < K)) as [Hpos|Hneg].
    + destruct (apply_positive net sched st K) as (r & _ & ->); [done..|].
      intros [= <-].
      destruct (issue_frame (pages_requested net st)
                  (setBulkSelectLoading true st))
        as (_ & _ & Ht & Hn & _).
      destruct r; simpl; by rewrite Ht, Hn.
    + unfold applyRowsPerPageAndSelect. rewrite HK. simpl.
      destruct (K <=? 0) eqn:E; [|lia]. by intros [= <-].
  - unfold applyRowsPerPageAndSelect. rewrite HK. simpl. by intros [= <-].
Qed.

(** C5. Two bulk selections in a row, with the same count and
    against the same API, end with the same selection, whatever the
    count and whatever the orders of arrival. *)
Theorem bulk_select_idempotent net sched1 sched2 st :
  every_order sched1 → every_order sched2 →
  ∃ st1 st2,
    applyRowsPerPageAndSelect net sched1 st = Some st1
    ∧ applyRowsPerPageAndSelect net sched2 st1 = Some st2
    ∧ selectedIds st2 = selectedIds st1.
Proof.
  intros H1 H2.
  assert (∃ st1, applyRowsPerPageAndSelect net sched1 st = Some st1)
    as [st1 Hst1].
  { unfold applyRowsPerPageAndSelect.
    destruct (default 0 (tempRows st) <=? 0); [by eexists|].
    rewrite run_batches_any_order by done.
    destruct (batches_result_total
                (length (pageNumbers (bulk_init (default 0 (tempRows st)) st)))
                net (bulk_init (default 0 (tempRows st)) st))
      as [[[ids|] f] ->]; [simpl; lia|by eexists..]. }
  destruct (apply_frame _ _ _ _ H1 Hst1) as [Ht Hn].
  exists st1. rewrite Hst1.
  destruct (tempRows st) as [K|] eqn:HK.
  - destruct (decide (0 < K)) as [Hpos|Hneg].
    + destruct (apply_positive net sched1 st K) as (r & Hres & Happ);
        [done..|].
      destruct (apply_positive net sched2 st1 K) as (r' & Hres' & ->);
        [done..|].
      assert (bulk_init K st1 = bulk_init K st) as Hinit.
      { unfold bulk_init. by rewrite Hn. }
      rewrite Hinit in Hres'. rewrite Hres in Hres'.
      injection Hres' as <- Hreq.
      eexists. split_and!; [done..|].
      rewrite Happ in Hst1. injection Hst1 as <-.
      destruct (issue_frame (pages_requested net st)
                  (setBulkSelectLoading true st)) as (Hs & _).
      destruct (issue_frame (pages_requested net
                  (finish_error (issue (pages_requested net st)
                     (setBulkSelectLoading true st))))
                  (setBulkSelectLoading true
                     (finish_error (issue (pages_requested net st)
                        (setBulkSelectLoading true st))))) as (Hs' & _).
      destruct r; simpl; [done|]. simpl in Hs'. by rewrite Hs'.
    + unfold applyRowsPerPageAndSelect in *. rewrite Ht. rewrite HK in *.
      simpl in *. destruct (K <=? 0) eqn:E; [|lia].
      injection Hst1 as <-. by eexists.
  - unfold applyRowsPerPageAndSelect in *. rewrite Ht. rewrite HK in *.
    simpl in *. injection Hst1 as <-. by eexists.
Qed.

Lemma bulk_select_idempotent_witness :
  ∃ st1 st2,
    applyRowsPerPageAndSelect (collection_net (sample_collection 30))
      in_request_order (sample_state 30 (Some 20)) = Some st1
    ∧ applyRowsPerPageAndSelect (collection_net (sample_collection 30))
        in_reverse_order st1 = Some st2
    ∧ selectedIds st2 = selectedIds st1.
Proof.
  apply (bulk_select_idempotent (collection_net (sample_collection 30))
           in_request_order in_reverse_order (sample_state 30 (Some 20))).
  - exact every_order_request.
  - exact every_order_reverse.
Defined.

End bulk_claims.

(** ** Facts about the sequential bulk selection of [CustomTable] *)

Section sequential_facts.
Import CustomTable.

(** The [while] loop ends within [maxPages] turns. *)
Lemma fetch_pages_total fuel net total maxPages page acc :
  maxPages < Z.of_nat page + Z.of_nat fuel →
  is_Some (fetch_pages fuel net total maxPages page acc).
Proof.
  revert page acc. induction fuel as [|fuel IH]; intros page acc Hfuel; simpl.
  - destruct (acc.2 <? total); simpl; [|done].
    destruct (Z.of_nat page <=? maxPages) eqn:E; [lia|done].
  - destruct ((acc.2 <? total) && (Z.of_nat page <=? maxPages)); [|done].
    destruct (net page) as [body|]; [|done]. apply IH. lia.
Qed.

End sequential_facts.

(** ** The offset after a bulk selection *)

(** C10. For a count [K > 0], both revisions of the bulk selection end
    with the offset [first] at 0, however the requests end: the last
    revision makes the call [setFirst(0)] as its last but one, after a
    rejected request as after a complete selection, and the sequential
    revision reaches [setFirst(0)] on both ways out of its [try]. *)
Theorem bulk_select_resets_offset net sched
    (st : ArtworkTable.State) (cst : CustomTable.State) K :
  every_order sched →
  ArtworkTable.tempRows st = Some K →
  CustomTable.tempRows cst = Some K → 0 < K →
  (∃ st' before,
     ArtworkTable.applyRowsPerPageAndSelect net sched st = Some st'
     ∧ ArtworkTable.first st' = 0
     ∧ ArtworkTable.calls st'
       = before ++ [ArtworkTable.CallSetFirst 0; ArtworkTable.CallHide])
  ∧ (∃ cst',
       CustomTable.applyRowsPerPageAndSelect net cst = Some cst'
       ∧ CustomTable.first cst' = 0).
Proof.
  intros Hsched HK HK' Hpos. split.
  - destruct (apply_positive net sched st K) as (r & _ & ->); [done..|].
    destruct r as [ids|]; eexists; eexists; (split; [done|]); simpl;
      (split; [done|]); rewrite <- (app_assoc _ [_] [_]); reflexivity.
  - unfold CustomTable.applyRowsPerPageAndSelect. rewrite HK'. simpl.
    destruct (K <=? 0) eqn:E; [lia|].
    destruct (fetch_pages_total
                (Z.to_nat (ceil_div (CustomTable.totalRecords cst) API_PAGE_SIZE))
                net K (ceil_div (CustomTable.totalRecords cst) API_PAGE_SIZE)
                1%nat ([], 0)) as [r ->]; [lia|].
    destruct r; by eexists.
Qed.

Lemma bulk_select_resets_offset_witness :
  (∃ st' before,
     ArtworkTable.applyRowsPerPageAndSelect second_page_fails in_reverse_order
       (sample_state 30 (Some 30)) = Some st'
     ∧ ArtworkTable.first st' = 0
     ∧ ArtworkTable.calls st'
       = before ++ [ArtworkTable.CallSetFirst 0; ArtworkTable.CallHide])
  ∧ (∃ cst',
       CustomTable.applyRowsPerPageAndSelect second_page_fails
         (sample_table 30 24 [7; 8] (Some 30)) = Some cst'
       ∧ CustomTable.first cst' = 0).
Proof.
  apply (bulk_select_resets_offset second_page_fails in_reverse_order
           (sample_state 30 (Some 30)) (sample_table 30 24 [7; 8] (Some 30)) 30).
  - exact every_order_reverse.
  - reflexivity.
  - reflexivity.
  - lia.
Defined.

(** ** Selecting and deselecting the page shown *)

Section page_claims.
Import ArtworkTable.

(** C6. [selectAllCurrentPage] and [deselectAllCurrentPage] leave
    the membership of every id that is not on the page shown as it
    was, selected or not. *)
Theorem page_selection_frame st x :
  x ∉ id <$> artworks st →
  JSSet.has (selectedIds (selectAllCurrentPage st)) x
  = JSSet.has (selectedIds st) x
  ∧ JSSet.has (selectedIds (deselectAllCurrentPage st)) x
    = JSSet.has (selectedIds st) x.
Proof.
  intros Hx. split; apply has_ext; simpl.
  - rewrite elem_of_from, elem_of_app, elem_of_from. tauto.
  - rewrite elem_of_from, list_elem_of_filter, negb_true_iff, has_false.
    rewrite elem_of_from. tauto.
Qed.

Lemma page_selection_frame_witness :
  JSSet.has (selectedIds (selectAllCurrentPage (sample_page [1; 2] [7; 1]))) 7
  = JSSet.has [7; 1] 7
  ∧ JSSet.has
      (selectedIds (deselectAllCurrentPage (sample_page [1; 2] [7; 1]))) 7
    = JSSet.has [7; 1] 7.
Proof.
  apply (page_selection_frame (sample_page [1; 2] [7; 1]) 7).
  vm_compute. intros Hin. inversion Hin as [|? ? ? Hin']; subst.
  inversion Hin' as [|? ? ? Hin'']; subst. inversion Hin''.
Defined.

End page_claims.

(** ** The checkbox of a row in [CustomTable] *)

Section checkbox_claims.
Import CustomTable.

(** Checking and then unchecking the box of an artwork removes the
    artworks with its id and keeps the others in place. *)
Lemma checkbox_update_pair artwork (prev : list Artwork) :
  checkbox_update artwork false (checkbox_update artwork true prev)
  = filter (λ item, id item ≠ id artwork) prev.
Proof.
  unfold checkbox_update.
  destruct (negb (existsb _ prev)); [|done].
  rewrite filter_app, filter_cons_False, filter_nil by (by intros ?).
  apply app_nil_r.
Qed.

Lemma isSelected_true st x :
  isSelected st x = true ↔ x ∈ id <$> selectedArtworks st.
Proof. unfold isSelected. by rewrite has_true, elem_of_from. Qed.

Lemma filter_not_selected (artwork : Artwork) (prev : list Artwork) :
  id artwork ∉ id <$> prev →
  filter (λ item, id item ≠ id artwork) prev = prev.
Proof.
  induction prev as [|item prev IH]; intros Hnot; [done|].
  rewrite fmap_cons, not_elem_of_cons in Hnot. destruct Hnot as [Hne Hnot].
  rewrite filter_cons_True by done. by rewrite IH.
Qed.

(** C7, as the code has it.  After [handleCheckboxChange(a, true)]
    and then [handleCheckboxChange(a, false)], the id of [a] is not
    selected, every other id is selected exactly if it was before,
    and the selection is the former one without the artworks that
    have the id of [a]; so the former selection is back when [a] was
    not selected in it. *)
Theorem checkbox_check_uncheck st artwork x :
  x ≠ id artwork →
  let st' := handleCheckboxChange artwork false
               (handleCheckboxChange artwork true st) in
  isSelected st' (id artwork) = false
  ∧ isSelected st' x = isSelected st x
  ∧ selectedArtworks st'
    = filter (λ item, id item ≠ id artwork) (selectedArtworks st)
  ∧ (isSelected st (id artwork) = false →
     selectedArtworks st' = selectedArtworks st).
Proof.
  intros Hx st'.
  assert (selectedArtworks st'
          = filter (λ item, id item ≠ id artwork) (selectedArtworks st))
    as Hsel by apply checkbox_update_pair.
  split_and!.
  - apply not_true_is_false. rewrite isSelected_true, Hsel.
    rewrite list_elem_of_fmap. intros (item & Heq & Hin).
    apply list_elem_of_filter in Hin as [Hne _]. congruence.
  - unfold isSelected. apply has_ext. rewrite !elem_of_from, Hsel.
    rewrite !list_elem_of_fmap. split.
    + intros (item & -> & Hin). exists item.
      apply list_elem_of_filter in Hin as [_ Hin]. done.
    + intros (item & -> & Hin). exists item. split; [done|].
      apply list_elem_of_filter. done.
  - exact Hsel.
  - intros Hnot. rewrite Hsel. apply filter_not_selected.
    rewrite <- isSelected_true. by rewrite Hnot.
Qed.

Lemma checkbox_check_uncheck_witness :
  let st := sample_table 30 0 [7; 8] None in
  let st' := handleCheckboxChange (sample_artwork 5) false
               (handleCheckboxChange (sample_artwork 5) true st) in
  isSelected st' 5 = false
  ∧ isSelected st' 7 = isSelected st 7
  ∧ selectedArtworks st'
    = filter (λ item, id item ≠ 5) (selectedArtworks st)
  ∧ (isSelected st 5 = false → selectedArtworks st' = selectedArtworks st).
Proof.
  apply (checkbox_check_uncheck (sample_table 30 0 [7; 8] None)
           (sample_artwork 5) 7).
  simpl. lia.
Defined.

(** C7 as the claim has it fails where the artwork is selected
    before the two calls: it is selected before and not after. *)
Lemma checkbox_check_uncheck_loses_selected :
  let st := sample_table 30 0 [5; 8] None in
  let st' := handleCheckboxChange (sample_artwork 5) false
               (handleCheckboxChange (sample_artwork 5) true st) in
  isSelected st 5 = true
  ∧ isSelected st' 5 = false
  ∧ isSelected st' 5 ≠ isSelected st 5.
Proof. by vm_compute. Qed.

End checkbox_claims.

(** ** The offset of the page shown *)

Section offset_claims.

(** C8, as the code has it.  [onPageChange] stores the offset of the
    event as it comes, in both revisions.  In the hand-written
    paginator it is the buttons that keep the offset in range: from
    an offset in [[0, max(0, pageCount - 1) * pageSize]] that is a
    multiple of the page size, a click on any button leaves such an
    offset, the buttons that would leave the range being disabled or
    absent. *)
Theorem paginator_keeps_offset_in_range c (cst : CustomTable.State)
    (st : ArtworkTable.State) event :
  offset_in_range (CustomTable.first cst) (CustomTable.totalRecords cst) →
  (API_PAGE_SIZE | CustomTable.first cst) →
  let cst' := CustomTable.click c cst in
  offset_in_range (CustomTable.first cst') (CustomTable.totalRecords cst')
  ∧ (API_PAGE_SIZE | CustomTable.first cst')
  ∧ CustomTable.first (CustomTable.onPageChange event cst) = ev_first event
  ∧ ArtworkTable.first (ArtworkTable.onPageChange event st) = ev_first event.
Proof.
  intros Hrange [q Hq] cst'. split_and!; [| |done..]; subst cst';
    unfold CustomTable.click;
    destruct (CustomTable.rendered c cst && negb (CustomTable.disabled c cst))
      eqn:Hon; try done; try (by exists q);
    apply andb_true_iff in Hon as [Hren Hdis];
    apply negb_true_iff in Hdis;
    unfold offset_in_range, CustomTable.pageCount, CustomTable.currentPage,
      API_PAGE_SIZE in *;
    destruct c as [| |n]; simpl in *;
    unfold CustomTable.pageCount, CustomTable.currentPage, API_PAGE_SIZE in *;
    try apply bool_decide_eq_true in Hren;
    rewrite ?Hq, ?Z.div_mul in * by done.
  - lia.
  - lia.
  - lia.
  - exists (q - 1). lia.
  - exists (q + 1). lia.
  - by exists (Z.of_nat n).
Qed.

Lemma paginator_keeps_offset_in_range_witness :
  let cst := sample_table 50 36 [] None in
  let cst' := CustomTable.click CustomTable.Next cst in
  offset_in_range (CustomTable.first cst') (CustomTable.totalRecords cst')
  ∧ (API_PAGE_SIZE | CustomTable.first cst')
  ∧ CustomTable.first (CustomTable.onPageChange (sample_event 1000) cst)
    = 1000
  ∧ ArtworkTable.first
      (ArtworkTable.onPageChange (sample_event 1000) (sample_state 50 None))
    = 1000.
Proof.
  apply (paginator_keeps_offset_in_range CustomTable.Next
           (sample_table 50 36 [] None) (sample_state 50 None)
           (sample_event 1000)).
  - vm_compute. split; discriminate.
  - exists 3. reflexivity.
Defined.

(** C8 as the claim has it fails: with 50 records, and so 5 pages
    and the range [[0, 48]], a request for the offset 1000 leaves
    the offset 1000, in both revisions. *)
Lemma onPageChange_does_not_clamp :
  CustomTable.first
    (CustomTable.onPageChange (sample_event 1000) (sample_table 50 0 [] None))
  = 1000
  ∧ ArtworkTable.first
      (ArtworkTable.onPageChange (sample_event 1000) (sample_state 50 None))
    = 1000
  ∧ ¬ offset_in_range 1000 50.
Proof.
  split_and!; [done..|]. unfold offset_in_range. vm_compute.
  intros [_ H]. by apply H.
Qed.

End offset_claims.

(** ** Runs of the bulk selection that overlap *)

Section overlap_claims.
Import ArtworkTable.

Lemma resume_suspended b st b' :
  (resume b st).1 = Some b' →
  bulkSelectLoading (resume b st).2 = bulkSelectLoading st.
Proof.
  unfold resume. destruct (loop_head b) as [|batch]; [done|].
  intros _. simpl. by destruct (issue_frame batch st) as (_ & _ & _ & _ & -> & _).
Qed.

Lemma one_at_a_time_start sys :
  (∀ k, ¬ suspended sys k) → one_at_a_time (start sys).
Proof.
  intros Hidle. unfold start.
  destruct (default 0 (tempRows (ui sys)) <=? 0).
  - split; intros j; [intros k|]; intros [b Hb]; simpl in Hb;
      apply lookup_snoc_Some in Hb as [[_ Hb]|[_ [=]]];
      destruct (Hidle j); by exists b.
  - assert (∀ j, suspended
              {| ui := (resume (bulk_init (default 0 (tempRows (ui sys))) (ui sys))
                          (setBulkSelectLoading true (ui sys))).2;
                 runs := runs sys
                   ++ [(resume (bulk_init (default 0 (tempRows (ui sys))) (ui sys))
                          (setBulkSelectLoading true (ui sys))).1] |} j →
              j = length (runs sys)) as Hlast.
    { intros j [b Hb]. simpl in Hb.
      apply lookup_snoc_Some in Hb as [[_ Hb]|[-> _]]; [|done].
      destruct (Hidle j). by exists b. }
    split.
    + intros j k Hj Hk. by rewrite (Hlast j Hj), (Hlast k Hk).
    + intros k Hk. pose proof (Hlast k Hk) as ->. destruct Hk as [b Hb].
      simpl in *. rewrite lookup_app_r, Nat.sub_diag in Hb by done.
      injection Hb as Hb. by rewrite (resume_suspended _ _ _ Hb).
Qed.

Lemma one_at_a_time_settle k outcome sys :
  one_at_a_time sys → one_at_a_time (settle k outcome sys).
Proof.
  intros [Huniq Hflag]. unfold settle.
  destruct (runs sys !! k) as [[b|]|] eqn:Hk; [|done..].
  assert (suspended sys k) as Hsusp by by exists b.
  assert (∀ v ui' j,
            suspended {| ui := ui'; runs := <[k := v]> (runs sys) |} j →
            j = k) as Honly.
  { intros v ui' j [b' Hb']. simpl in Hb'.
    destruct (decide (j = k)) as [|Hne]; [done|].
    rewrite list_lookup_insert_ne in Hb' by done.
    apply Huniq; [by exists b'|done]. }
  destruct outcome as [results|].
  - split.
    + intros i j Hi Hj. by rewrite (Honly _ _ _ Hi), (Honly _ _ _ Hj).
    + intros j Hj. pose proof (Honly _ _ _ Hj) as ->.
      destruct Hj as [b' Hb']. simpl in *.
      rewrite list_lookup_insert_eq in Hb' by by eapply lookup_lt_Some.
      injection Hb' as Hb'. rewrite (resume_suspended _ _ _ Hb').
      by apply (Hflag k).
  - split.
    + intros i j Hi Hj. by rewrite (Honly _ _ _ Hi), (Honly _ _ _ Hj).
    + intros j Hj. pose proof (Honly _ _ _ Hj) as ->.
      destruct Hj as [b' Hb']. simpl in Hb'.
      by rewrite list_lookup_insert_eq in Hb' by by eapply lookup_lt_Some.
Qed.

Lemma one_at_a_time_step sys e :
  one_at_a_time sys → one_at_a_time (step sys e).
Proof.
  intros Hinv. destruct e as [|v|k outcome]; simpl.
  - unfold click_apply.
    destruct (bulkSelectLoading (ui sys)) eqn:Hbusy; simpl; [done|].
    destruct (loading (ui sys)); [done|].
    apply one_at_a_time_start. intros k Hk.
    destruct Hinv as [_ Hflag]. rewrite (Hflag k Hk) in Hbusy. done.
  - exact Hinv.
  - by apply one_at_a_time_settle.
Qed.

Lemma one_at_a_time_run_events es sys :
  one_at_a_time sys → one_at_a_time (run_events sys es).
Proof.
  revert sys. induction es as [|e es IH]; intros sys Hinv; [done|].
  simpl. apply IH. by apply one_at_a_time_step.
Qed.

(** A run that is started and then driven alone to its end leaves the
    state that [applyRowsPerPageAndSelect] computes in one go: the two
    descriptions of the function agree. *)
Lemma drive_resume fuel net before b st :
  (length (pageNumbers b) ≤ i b + fuel)%nat →
  Some (ui (drive fuel net (length before)
              {| ui := (resume b st).2;
                 runs := before ++ [(resume b st).1] |}))
  = (λ rf, match rf.1 with
           | Fulfilled ids => finish_ok ids (issue rf.2 st)
           | Rejected => finish_error (issue rf.2 st)
           end) <$> batches_result fuel net b.
Proof.
  revert b st. induction fuel as [|fuel IH]; intros b st Hfuel.
  - simpl. unfold resume. destruct (loop_head b) as [|batch] eqn:Hhead; [done|].
    apply loop_head_Await in Hhead as (? & _). lia.
  - cbn [drive batches_result]. unfold resume.
    destruct (loop_head b) as [|batch] eqn:Hhead; cbn [fst snd runs].
    + rewrite lookup_app_r, Nat.sub_diag by done. done.
    + rewrite lookup_app_r, Nat.sub_diag by done. cbn [lookup list_lookup].
      unfold settle. cbn [runs ui].
      rewrite lookup_app_r, Nat.sub_diag by done. cbn [lookup list_lookup].
      unfold awaited. rewrite Hhead.
      destruct (all_settled (net <$> batch)) as [results|].
      * rewrite insert_app_r_alt, Nat.sub_diag by done. cbn [insert list_insert].
        rewrite IH by (unfold after_batch, CONCURRENT_REQUESTS; simpl; lia).
        destruct (batches_result fuel net (after_batch b results))
          as [[r f]|]; [|done].
        simpl. by rewrite issue_app.
      * rewrite insert_app_r_alt, Nat.sub_diag by done. cbn [insert list_insert].
        destruct fuel; simpl; by rewrite ?lookup_app_r, ?Nat.sub_diag by done.
Qed.

Lemma start_drive_agrees net sched sys :
  every_order sched →
  applyRowsPerPageAndSelect net sched (ui sys)
  = Some (ui (drive
                (length (pageNumbers
                   (bulk_init (default 0 (tempRows (ui sys))) (ui sys))))
                net (length (runs sys)) (start sys))).
Proof.
  intros Hsched. unfold applyRowsPerPageAndSelect, start.
  destruct (default 0 (tempRows (ui sys)) <=? 0).
  - f_equal. destruct (length _); simpl; [done|].
    by rewrite lookup_app_r, Nat.sub_diag by done.
  - rewrite run_batches_any_order by done. cbv zeta.
    rewrite drive_resume by (simpl; lia).
    destruct (batches_result_total
                (length (pageNumbers
                   (bulk_init (default 0 (tempRows (ui sys))) (ui sys))))
                net (bulk_init (default 0 (tempRows (ui sys))) (ui sys)))
      as [[[ids|] f] ->]; [simpl; lia|done..].
Qed.

(** C9, as the code has it.  Through the "Apply Bulk Selection"
    button no run starts while another is in flight: from a system
    with at most one suspended run, and the loading flag set when
    there is one, every sequence of clicks, edits and settling
    batches leads to such a system.  The function itself keeps no
    sequence number: in any system [sys'], also one where runs
    overlap, a suspended run whose last batch settles makes its own
    set the selection, whatever runs were started after it. *)
Theorem bulk_runs_button_gate_and_last_completion
    sys es sys' k b results :
  one_at_a_time sys →
  runs sys' !! k = Some (Some b) →
  loop_head (after_batch b results) = Leave →
  one_at_a_time (run_events sys es)
  ∧ selectedIds (ui (settle k (Fulfilled results) sys'))
    = newSelectedIds (after_batch b results).
Proof.
  intros Hinv Hk Hleave. split; [by apply one_at_a_time_run_events|].
  unfold settle, resume. by rewrite Hk, Hleave.
Qed.

Lemma idle_system_one_at_a_time : one_at_a_time idle_system.
Proof. split; intros j; [intros k|]; by intros [b Hb]. Defined.

Lemma bulk_runs_button_gate_and_last_completion_witness :
  one_at_a_time
    (run_events idle_system
       [ClickApply; EditRows (Some 1); ClickApply;
        BatchSettles 0 (Fulfilled [sample_response 1; sample_response 2])])
  ∧ selectedIds
      (ui (settle 0 (Fulfilled [sample_response 1; sample_response 2])
             overlapping_system))
    = ids (take 24 (sample_collection 30)).
Proof.
  apply (bulk_runs_button_gate_and_last_completion idle_system
           [ClickApply; EditRows (Some 1); ClickApply;
            BatchSettles 0 (Fulfilled [sample_response 1; sample_response 2])]
           overlapping_system 0%nat
           (bulk_init 24 (sample_state 30 (Some 24)))
           [sample_response 1; sample_response 2]).
  - exact idle_system_one_at_a_time.
  - reflexivity.
  - reflexivity.
Defined.

(** C9 as the claim has it fails.  The function is called for 24
    rows and, while that run waits, for 1 row; both runs are
    suspended.  The run started last ends first and selects the id
    101.  The run started first ends after it and puts its own 24
    ids in place of that selection. *)
Lemma stale_run_overwrites_later_run :
  let sys1 := settle 1 (Fulfilled [sample_response 1]) overlapping_system in
  let sys2 :=
    settle 0 (Fulfilled [sample_response 1; sample_response 2]) sys1 in
  suspended overlapping_system 0 ∧ suspended overlapping_system 1
  ∧ runs sys1 !! 1%nat = Some None
  ∧ selectedIds (ui sys1) = [101]
  ∧ runs sys2 = [None; None]
  ∧ selectedIds (ui sys2) = ids (take 24 (sample_collection 30))
  ∧ selectedIds (ui sys2) ≠ selectedIds (ui sys1).
Proof.
  split_and!; try (eexists; reflexivity); try reflexivity.
  by vm_compute.
Qed.

End overlap_claims.


(** * Further properties *)

(** ** General facts about lists and sets *)

Section more_list_facts.

Lemma filter_ext_in {A : Type} (P Q : A → Prop)
    `{!∀ x, Decision (P x), !∀ x, Decision (Q x)} (l : list A) :
  (∀ x, x ∈ l → P x ↔ Q x) → filter P l = filter Q l.
Proof.
  induction l as [|a l IH]; intros Hext; [done|].
  assert (filter P l = filter Q l) as Hl.
  { apply IH. intros x Hx. apply Hext. by right. }
  destruct (decide (P a)) as [HP|HP].
  - rewrite !filter_cons_True, Hl; [done| |done]. apply Hext; [by left|done].
  - rewrite !filter_cons_False, Hl; [done| |done].
    intros HQ. apply HP. apply Hext; [by left|done].
Qed.

Lemma NoDup_add (s : list Z) x : NoDup s → NoDup (JSSet.add s x).
Proof.
  intros Hnd. unfold JSSet.add. destruct (JSSet.has s x) eqn:E; [done|].
  apply has_false in E. apply NoDup_app. split_and!; [done| |apply NoDup_singleton].
  intros y Hy Hin. apply list_elem_of_singleton in Hin as ->. done.
Qed.

Lemma NoDup_foldl_add (l s : list Z) : NoDup s → NoDup (foldl JSSet.add s l).
Proof.
  revert s. induction l as [|x l IH]; intros s Hnd; [done|].
  simpl. apply IH. by apply NoDup_add.
Qed.

(** A [Set] built from any array has no element twice. *)
Lemma NoDup_from (l : list Z) : NoDup (JSSet.from l).
Proof. apply NoDup_foldl_add. constructor. Qed.

Lemma length_add (s : list Z) x : (length (JSSet.add s x) ≤ S (length s))%nat.
Proof.
  unfold JSSet.add. destruct (JSSet.has s x); [lia|].
  rewrite length_app. simpl. lia.
Qed.

(** The rows of [l] whose id is among the ids of a sublist [value] of
    [l] are the rows of [value], when no two rows of [l] share an
    id. *)
Lemma filter_ids_sublist (value l : list Artwork) :
  value `sublist_of` l → NoDup (id <$> l) →
  filter (λ a, id a ∈ id <$> value) l = value.
Proof.
  induction 1 as [|a l1 l2 Hsub IH|a l1 l2 Hsub IH]; intros Hnd; [done|..];
    rewrite fmap_cons in Hnd; apply NoDup_cons in Hnd as [Ha Hnd].
  - rewrite filter_cons_True by (rewrite fmap_cons; by left).
    f_equal. etrans; [|exact (IH Hnd)]. apply filter_ext_in.
    intros b Hb. rewrite fmap_cons, elem_of_cons. split; [|by right].
    intros [Heq|?]; [|done]. destruct Ha. rewrite <- Heq.
    by apply list_elem_of_fmap_2.
  - rewrite filter_cons_False; [by apply IH|].
    intros Hin. apply Ha.
    apply list_elem_of_fmap in Hin as (b & -> & Hb).
    apply list_elem_of_fmap_2. by apply (sublist_subseteq _ _ Hsub).
Qed.

End more_list_facts.

(** ** The checkboxes of the table in the last revision *)

Section table_selection.
Import ArtworkTable ArtworkTablePage.

Lemma elem_of_table_selection value st x :
  x ∈ selectedIds (onDataTableSelectionChange value st)
  ↔ (x ∈ selectedIds st ∧ x ∉ id <$> artworks st) ∨ x ∈ id <$> value.
Proof.
  simpl. rewrite elem_of_foldl_add, elem_of_from, list_elem_of_filter.
  rewrite negb_true_iff, has_false, elem_of_from. tauto.
Qed.

(** X1. After [onDataTableSelectionChange], an id is selected exactly
    if it is the id of a row of [e.value], or it was selected and is
    not the id of a row of the page shown: what is selected on other
    pages stays selected, and on the page shown the rows of [e.value]
    are the selected ones. *)
Theorem table_selection_membership value st x :
  JSSet.has (selectedIds (onDataTableSelectionChange value st)) x = true
  ↔ (JSSet.has (selectedIds st) x = true ∧ x ∉ id <$> artworks st)
    ∨ x ∈ id <$> value.
Proof. rewrite !has_true. apply elem_of_table_selection. Qed.

(** X2. When no two rows of the page share an id and [e.value] is
    some of the rows of the page, in their order, then after
    [onDataTableSelectionChange] the rows that the table shows as
    selected ([selectedArtworks]) are the rows of [e.value]. *)
Theorem table_selection_round_trip value st :
  value `sublist_of` artworks st → NoDup (id <$> artworks st) →
  selectedArtworks (onDataTableSelectionChange value st) = value.
Proof.
  intros Hsub Hnd. unfold selectedArtworks.
  change (artworks (onDataTableSelectionChange value st)) with (artworks st).
  etrans; [|exact (filter_ids_sublist value (artworks st) Hsub Hnd)].
  apply filter_ext_in. intros a Ha.
  rewrite has_true, elem_of_table_selection. split; [|by right].
  intros [[_ Hoff]|?]; [|done]. destruct Hoff. by apply list_elem_of_fmap_2.
Qed.

Lemma table_selection_round_trip_witness :
  selectedArtworks
    (onDataTableSelectionChange [sample_artwork 1; sample_artwork 3] sample_rows)
  = [sample_artwork 1; sample_artwork 3].
Proof.
  apply (table_selection_round_trip [sample_artwork 1; sample_artwork 3]
           sample_rows).
  - apply sublist_skip, sublist_cons, sublist_skip, sublist_nil.
  - apply (bool_decide_unpack _). by vm_compute.
Defined.

(** X3. Handing the table back the rows it shows as selected changes
    the membership of no id, on the page shown or elsewhere. *)
Theorem table_selection_unchanged st x :
  JSSet.has (selectedIds (onDataTableSelectionChange (selectedArtworks st) st)) x
  = JSSet.has (selectedIds st) x.
Proof.
  apply has_ext. rewrite elem_of_table_selection. unfold selectedArtworks.
  rewrite !list_elem_of_fmap. split.
  - intros [[? _]|(a & -> & Ha)]; [done|].
    apply list_elem_of_filter in Ha as [Ha _]. by apply has_true.
  - intros Hx. destruct (decide (x ∈ id <$> artworks st)) as [Hon|Hoff].
    + right. apply list_elem_of_fmap in Hon as (a & -> & Ha).
      exists a. split; [done|]. apply list_elem_of_filter.
      split; [by apply has_true|done].
    + left. split; [done|]. by rewrite list_elem_of_fmap in Hoff.
Qed.

(** With every promise settling, a bulk selection returns. *)
Lemma apply_returns net sched st :
  every_order sched →
  ∃ st', applyRowsPerPageAndSelect net sched st = Some st'.
Proof.
  intros Hsched. unfold applyRowsPerPageAndSelect.
  destruct (default 0 (tempRows st) <=? 0); [by eexists|].
  rewrite run_batches_any_order by done.
  destruct (batches_result_total
              (length (pageNumbers (bulk_init (default 0 (tempRows st)) st)))
              net (bulk_init (default 0 (tempRows st)) st))
    as [[[ids|] f] ->]; [simpl; lia|by eexists..].
Qed.

(** X4. The handlers of the selection leave a set without repetition,
    whatever list of ids they start from: the two buttons for the page
    shown, the checkboxes of the table and the button that clears.  A
    bulk selection leaves one when it started from one, for every API
    and every order of arrival. *)
Theorem handlers_leave_a_set net sched value st :
  every_order sched → NoDup (selectedIds st) →
  NoDup (selectedIds (selectAllCurrentPage st))
  ∧ NoDup (selectedIds (deselectAllCurrentPage st))
  ∧ NoDup (selectedIds (onDataTableSelectionChange value st))
  ∧ NoDup (selectedIds (clearAll st))
  ∧ ∃ st', applyRowsPerPageAndSelect net sched st = Some st'
           ∧ NoDup (selectedIds st').
Proof.
  intros Hsched Hnd. split_and!.
  - apply NoDup_from.
  - apply NoDup_from.
  - apply NoDup_foldl_add, NoDup_from.
  - constructor.
  - destruct (apply_returns net sched st Hsched) as [st' Hst'].
    exists st'. split; [done|].
    unfold applyRowsPerPageAndSelect in Hst'.
    destruct (default 0 (tempRows st) <=? 0).
    { injection Hst' as <-. constructor. }
    rewrite run_batches_any_order in Hst' by done.
    set (b0 := bulk_init (default 0 (tempRows st)) st) in *.
    assert (∀ fuel b r f, NoDup (newSelectedIds b) →
              batches_result fuel net b = Some (r, f) →
              ∀ ids, r = Fulfilled ids → NoDup ids) as Hloop.
    { clear. induction fuel as [|fuel IH]; intros b r f Hb; simpl;
        destruct (loop_head b) as [|batch]; try done.
      1,2: by intros [= <- <-] ids [= <-].
      destruct (all_settled (net <$> batch)) as [results|]; [|by intros [= <- <-]].
      destruct (batches_result fuel net (after_batch b results))
        as [[r' f']|] eqn:Hrec; [|done].
      intros [= <- <-]. eapply IH; [|exact Hrec].
      unfold after_batch. simpl. rewrite take_results_spec. simpl.
      by apply NoDup_foldl_add. }
    destruct (batches_result (length (pageNumbers b0)) net b0)
      as [[[ids|] f]|] eqn:Hres; simpl in Hst'; [| |done].
    + injection Hst' as <-. simpl.
      eapply (Hloop _ b0); [constructor|exact Hres|done].
    + injection Hst' as <-. simpl.
      by destruct (issue_frame f (setBulkSelectLoading true st)) as (-> & _).
Qed.

Lemma handlers_leave_a_set_witness :
  NoDup (selectedIds (selectAllCurrentPage sample_rows))
  ∧ NoDup (selectedIds (deselectAllCurrentPage sample_rows))
  ∧ NoDup (selectedIds
             (onDataTableSelectionChange [sample_artwork 1] sample_rows))
  ∧ NoDup (selectedIds (clearAll sample_rows))
  ∧ ∃ st', applyRowsPerPageAndSelect second_page_fails in_reverse_order
             sample_rows = Some st'
           ∧ NoDup (selectedIds st').
Proof.
  apply (handlers_leave_a_set second_page_fails in_reverse_order
           [sample_artwork 1] sample_rows).
  - exact every_order_reverse.
  - apply (bool_decide_unpack _). by vm_compute.
Defined.

(** X5. After [selectAllCurrentPage] the id of every row of the page
    shown is selected, and after [deselectAllCurrentPage] none is. *)
Theorem page_buttons_cover_page st x :
  x ∈ id <$> artworks st →
  JSSet.has (selectedIds (selectAllCurrentPage st)) x = true
  ∧ JSSet.has (selectedIds (deselectAllCurrentPage st)) x = false.
Proof.
  intros Hx. split.
  - apply has_true. simpl. rewrite elem_of_from, elem_of_app, elem_of_from.
    by right.
  - apply has_false. simpl.
    rewrite elem_of_from, list_elem_of_filter, negb_true_iff, has_false.
    rewrite elem_of_from. tauto.
Qed.

Lemma page_buttons_cover_page_witness :
  JSSet.has (selectedIds (selectAllCurrentPage sample_rows)) 3 = true
  ∧ JSSet.has (selectedIds (deselectAllCurrentPage sample_rows)) 3 = false.
Proof.
  apply (page_buttons_cover_page sample_rows 3).
  vm_compute. repeat constructor.
Defined.

End table_selection.

(** ** The requests of a bulk selection in the last revision *)

Section bulk_requests.
Import ArtworkTable ArtworkTablePage.

(** The pages requested are the next pages of [pageNumbers], without a
    gap. *)
Lemma batches_result_prefix fuel net b r fetched :
  batches_result fuel net b = Some (r, fetched) →
  fetched `prefix_of` drop (i b) (pageNumbers b).
Proof.
  revert b r fetched.
  induction fuel as [|fuel IH]; intros b r fetched; simpl;
    destruct (loop_head b) as [|batch] eqn:Hhead; try done.
  1,2: intros [= <- <-]; apply prefix_nil.
  apply loop_head_Await in Hhead as (_ & _ & ->).
  destruct (all_settled _) as [results|].
  - destruct (batches_result fuel net (after_batch b results))
      as [[r' f']|] eqn:Hrec; [|done].
    intros [= <- <-]. apply IH in Hrec. simpl in Hrec.
    rewrite <- drop_drop in Hrec.
    rewrite <- (take_drop CONCURRENT_REQUESTS (drop (i b) (pageNumbers b))) at 2.
    by apply prefix_app.
  - intros [= <- <-]. apply prefix_take.
Qed.

Lemma pages_requested_seq net st :
  ∃ n, pages_requested net st = S <$> seq 0 n
       ∧ Z.of_nat n ≤ Z.max 0 (Z.min (ceil_div (default 0 (tempRows st))
                                        API_PAGE_SIZE)
                                 (ceil_div (totalRecords st) API_PAGE_SIZE)).
Proof.
  unfold pages_requested.
  set (b := bulk_init (default 0 (tempRows st)) st).
  destruct (batches_result (length (pageNumbers b)) net b)
    as [[r f]|] eqn:Hres.
  - apply batches_result_prefix in Hres as [k Hk].
    change (drop (i b)) with (drop (A := nat) 0) in Hk. rewrite drop_0 in Hk.
    change (pageNumbers b) with
      (S <$> seq 0 (Z.to_nat
         (Z.min (ceil_div (default 0 (tempRows st)) API_PAGE_SIZE)
                (ceil_div (totalRecords st) API_PAGE_SIZE)))) in Hk.
    exists (length f). split.
    + pose proof (f_equal length Hk) as Hlen.
      rewrite length_app, length_fmap, length_seq in Hlen.
      etrans; [symmetry; apply (take_app_length f k)|].
      rewrite <- Hk, <- fmap_take, take_seq. f_equal. f_equal. lia.
    + apply (f_equal length) in Hk.
      rewrite length_app, length_fmap, length_seq in Hk. lia.
  - exists 0%nat. split; [done|lia].
Qed.

(** X6. A bulk selection with a count [K > 0] requests the pages 1,
    2, ..., n, in this order and each once, for some n that is at
    most [ceil(K / 12)] and at most [ceil(totalRecords / 12)]; it
    makes no other request, whether it ends with a selection or with
    an error. *)
Theorem bulk_requests_in_order net sched st K :
  every_order sched → tempRows st = Some K → 0 < K →
  ∃ st' n rest,
    applyRowsPerPageAndSelect net sched st = Some st'
    ∧ calls st'
      = calls st ++ [CallSetBulkSelectLoading true]
        ++ (CallFetch <$> (S <$> seq 0 n)) ++ rest
    ∧ (∀ p, CallFetch p ∉ rest)
    ∧ Z.of_nat n ≤ ceil_div K API_PAGE_SIZE
    ∧ Z.of_nat n ≤ Z.max 0 (ceil_div (totalRecords st) API_PAGE_SIZE).
Proof.
  intros Hsched HK Hpos.
  destruct (apply_positive net sched st K) as (r & _ & ->); [done..|].
  destruct (pages_requested_seq net st) as (n & -> & Hn).
  rewrite HK in Hn. simpl in Hn.
  pose proof (ceil_div_page K). unfold API_PAGE_SIZE in *.
  destruct r as [ids|].
  - exists (finish_ok ids (issue (S <$> seq 0 n) (setBulkSelectLoading true st))),
      n, [CallSetSelectedIds ids; CallSetBulkSelectLoading false;
          CallSetFirst 0; CallHide].
    split_and!; [done| | |lia..].
    + simpl. rewrite issue_calls. simpl. by rewrite <- !app_assoc.
    + intros p Hin. by repeat (apply elem_of_cons in Hin as [?|Hin]; [done|]);
        inversion Hin.
  - exists (finish_error (issue (S <$> seq 0 n) (setBulkSelectLoading true st))),
      n, [CallConsoleError; CallSetBulkSelectLoading false;
          CallSetFirst 0; CallHide].
    split_and!; [done| | |lia..].
    + simpl. rewrite issue_calls. simpl. by rewrite <- !app_assoc.
    + intros p Hin. by repeat (apply elem_of_cons in Hin as [?|Hin]; [done|]);
        inversion Hin.
Qed.

Lemma bulk_requests_in_order_witness :
  ∃ st' n rest,
    applyRowsPerPageAndSelect second_page_fails in_reverse_order
      (sample_state 30 (Some 30)) = Some st'
    ∧ calls st'
      = [] ++ [CallSetBulkSelectLoading true]
        ++ (CallFetch <$> (S <$> seq 0 n)) ++ rest
    ∧ (∀ p, CallFetch p ∉ rest)
    ∧ Z.of_nat n ≤ ceil_div 30 API_PAGE_SIZE
    ∧ Z.of_nat n ≤ Z.max 0 (ceil_div 30 API_PAGE_SIZE).
Proof.
  apply (bulk_requests_in_order second_page_fails in_reverse_order
           (sample_state 30 (Some 30)) 30).
  - exact every_order_reverse.
  - reflexivity.
  - lia.
Defined.

(** X7. With the count within the [max] of the number input,
    [min(totalRecords, 1000)], a bulk selection makes at most 84
    requests, for any API. *)
Theorem bulk_requests_within_cap net st K :
  tempRows st = Some K → K ≤ rows_max st →
  (length (pages_requested net st) ≤ 84)%nat.
Proof.
  intros HK Hmax. destruct (pages_requested_seq net st) as (n & -> & Hn).
  rewrite HK in Hn. simpl in Hn. rewrite length_fmap, length_seq.
  unfold rows_max in Hmax.
  assert (ceil_div K API_PAGE_SIZE ≤ 84); [|lia].
  unfold ceil_div, API_PAGE_SIZE.
  apply Z.lt_succ_r, Z.div_lt_upper_bound; lia.
Qed.

Lemma bulk_requests_within_cap_witness :
  (length (pages_requested second_page_fails (sample_state 30%Z (Some 30%Z)))
   ≤ 84)%nat.
Proof.
  apply (bulk_requests_within_cap second_page_fails
           (sample_state 30 (Some 30)) 30).
  - reflexivity.
  - vm_compute. discriminate.
Defined.

Lemma length_foldl_add (l s : list Z) :
  (length (foldl JSSet.add s l) ≤ length s + length l)%nat.
Proof.
  revert s. induction l as [|x l IH]; intros s; simpl; [lia|].
  pose proof (IH (JSSet.add s x)). pose proof (length_add s x). lia.
Qed.

(** The set under construction never has more elements than items
    were counted, and the count never passes the target. *)
Lemma batches_result_bound fuel net b r fetched sel :
  Z.of_nat (length (newSelectedIds b)) ≤ selectedCount b →
  selectedCount b ≤ totalToSelect b →
  batches_result fuel net b = Some (r, fetched) → r = Fulfilled sel →
  Z.of_nat (length sel) ≤ totalToSelect b.
Proof.
  revert b r fetched.
  induction fuel as [|fuel IH]; intros b r fetched Hlen Hcount; simpl;
    destruct (loop_head b) as [|batch]; try done.
  1,2: intros [= <- <-] [= <-]; lia.
  destruct (all_settled (net <$> batch)) as [results|]; [|by intros [= <- <-]].
  destruct (batches_result fuel net (after_batch b results))
    as [[r' f']|] eqn:Hrec; [|done].
  intros [= <- <-] Hr.
  apply (IH (after_batch b results) r' f'); [| |done..];
    unfold after_batch; simpl; rewrite take_results_spec; simpl.
  - pose proof (length_foldl_add
      (ids (take (Z.to_nat (totalToSelect b - selectedCount b))
              (concat (data <$> results)))) (newSelectedIds b)) as Hle.
    unfold ids in Hle at 2. rewrite length_fmap in Hle. lia.
  - rewrite length_take. lia.
Qed.

(** X8. A bulk selection with a count [K > 0] never leaves more than
    [K] ids selected, whatever the API sends (pages of any length,
    ids that repeat): it ends with at most [K] ids, or, after an
    error, with the selection it started from. *)
Theorem bulk_select_at_most_count net sched st K :
  every_order sched → tempRows st = Some K → 0 < K →
  ∃ st',
    applyRowsPerPageAndSelect net sched st = Some st'
    ∧ (JSSet.size (selectedIds st') ≤ K
       ∨ selectedIds st' = selectedIds st).
Proof.
  intros Hsched HK Hpos.
  destruct (apply_positive net sched st K) as (r & Hres & ->); [done..|].
  eexists. split; [done|].
  destruct (issue_frame (pages_requested net st)
              (setBulkSelectLoading true st)) as (Hs & _).
  destruct r as [ids|]; simpl; [left|by right].
  unfold JSSet.size.
  apply (batches_result_bound _ _ _ _ _ ids) in Hres; [done|simpl; lia..|done].
Qed.

Lemma bulk_select_at_most_count_witness :
  ∃ st',
    applyRowsPerPageAndSelect (collection_net (sample_collection 30))
      in_reverse_order (sample_state 30 (Some 20)) = Some st'
    ∧ (JSSet.size (selectedIds st') ≤ 20
       ∨ selectedIds st' = [7; 8]).
Proof.
  apply (bulk_select_at_most_count (collection_net (sample_collection 30))
           in_reverse_order (sample_state 30 (Some 20)) 20).
  - exact every_order_reverse.
  - reflexivity.
  - lia.
Defined.

(** X9. A bulk selection with a count [K > 0] that runs while
    [totalRecords] is still 0 (no page has loaded) makes no request
    and clears the selection. *)
Theorem bulk_select_before_load net sched st K :
  tempRows st = Some K → 0 < K → totalRecords st ≤ 0 →
  applyRowsPerPageAndSelect net sched st
  = Some (finish_ok JSSet.empty (setBulkSelectLoading true st))
  ∧ pages_requested net st = [].
Proof.
  intros HK Hpos Htotal.
  assert (pageNumbers (bulk_init K st) = []) as Hpages.
  { simpl.
    assert (ceil_div (totalRecords st) API_PAGE_SIZE ≤ 0) as Hle.
    { unfold ceil_div, API_PAGE_SIZE.
      apply Z.lt_succ_r, Z.div_lt_upper_bound; lia. }
    by replace (Z.to_nat _) with 0%nat by lia. }
  unfold applyRowsPerPageAndSelect, pages_requested. rewrite HK.
  change (default 0 (Some K)) with K. cbv zeta.
  destruct (K <=? 0) eqn:E; [lia|].
  rewrite Hpages. simpl. unfold loop_head. by rewrite Hpages.
Qed.

Lemma bulk_select_before_load_witness :
  applyRowsPerPageAndSelect second_page_fails in_reverse_order sample_unloaded
  = Some (finish_ok JSSet.empty (setBulkSelectLoading true sample_unloaded))
  ∧ pages_requested second_page_fails sample_unloaded = [].
Proof.
  apply (bulk_select_before_load second_page_fails in_reverse_order
           sample_unloaded 10).
  - reflexivity.
  - lia.
  - vm_compute. discriminate.
Defined.

End bulk_requests.

(** ** Loading the page shown *)

Section navigation.

Lemma page_of_offset coll offset :
  0 ≤ offset → (API_PAGE_SIZE | offset) →
  page_of coll (Z.to_nat (offset / API_PAGE_SIZE + 1))
  = take (Z.to_nat API_PAGE_SIZE) (drop (Z.to_nat offset) coll).
Proof.
  intros Hpos [q ->]. unfold page_of, API_PAGE_SIZE in *.
  rewrite Z.div_mul by done. do 2 f_equal. lia.
Qed.

(** X10. In the last revision, a change to another offset that is a
    multiple of the page size and not negative, against a collection
    served without failure, ends with the twelve rows from that
    offset on (fewer at the end of the collection) in the table, the
    size of the collection as [totalRecords], the loading flag down,
    and the selection as it was. *)
Theorem page_change_shows_rows coll event (st : ArtworkTable.State) :
  0 ≤ ev_first event → (API_PAGE_SIZE | ev_first event) →
  ev_first event ≠ ArtworkTable.first st →
  let st' := ArtworkTablePage.then_render (collection_net coll)
               (ArtworkTable.onPageChange event) st in
  ArtworkTable.artworks st'
  = rows_at ArtworkTablePage.to_artwork coll (ev_first event)
  ∧ ArtworkTable.totalRecords st' = Z.of_nat (length coll)
  ∧ ArtworkTable.first st' = ev_first event
  ∧ ArtworkTable.loading st' = false
  ∧ ArtworkTable.selectedIds st' = ArtworkTable.selectedIds st.
Proof.
  intros Hpos Hdiv Hne st'. subst st'.
  unfold ArtworkTablePage.then_render, ArtworkTablePage.render_after.
  simpl. destruct (ev_first event =? ArtworkTable.first st) eqn:E; [lia|].
  unfold ArtworkTablePage.effect, ArtworkTablePage.fetchData,
    ArtworkTablePage.apiPage, collection_net. simpl.
  split_and!; try done. unfold rows_at. by rewrite page_of_offset.
Qed.

Lemma page_change_shows_rows_witness :
  let st' := ArtworkTablePage.then_render
               (collection_net (sample_collection 30))
               (ArtworkTable.onPageChange (sample_event 12))
               (sample_state 30 None) in
  ArtworkTable.artworks st'
  = rows_at ArtworkTablePage.to_artwork (sample_collection 30) 12
  ∧ ArtworkTable.totalRecords st' = 30
  ∧ ArtworkTable.first st' = 12
  ∧ ArtworkTable.loading st' = false
  ∧ ArtworkTable.selectedIds st' = [7; 8].
Proof.
  apply (page_change_shows_rows (sample_collection 30) (sample_event 12)
           (sample_state 30 None)).
  - simpl. lia.
  - exists 1. reflexivity.
  - simpl. lia.
Defined.

(** X11. In the last revision, when the request for the page of a new
    offset fails, the offset is the new one while the table keeps the
    rows and the [totalRecords] it had; the loading flag is down, the
    error is logged, and the selection is as it was. *)
Theorem page_change_failure_keeps_rows net event (st : ArtworkTable.State) :
  ev_first event ≠ ArtworkTable.first st →
  net (Z.to_nat (ev_first event / API_PAGE_SIZE + 1)) = Rejected →
  let st' := ArtworkTablePage.then_render net
               (ArtworkTable.onPageChange event) st in
  ArtworkTable.first st' = ev_first event
  ∧ ArtworkTable.artworks st' = ArtworkTable.artworks st
  ∧ ArtworkTable.totalRecords st' = ArtworkTable.totalRecords st
  ∧ ArtworkTable.loading st' = false
  ∧ ArtworkTable.selectedIds st' = ArtworkTable.selectedIds st
  ∧ ArtworkTable.calls st'
    = ArtworkTable.calls st
      ++ [ArtworkTable.CallSetFirst (ev_first event);
          ArtworkTable.CallFetch (Z.to_nat (ev_first event / API_PAGE_SIZE + 1));
          ArtworkTable.CallConsoleError].
Proof.
  intros Hne Hrej st'. subst st'.
  unfold ArtworkTablePage.then_render, ArtworkTablePage.render_after.
  simpl. destruct (ev_first event =? ArtworkTable.first st) eqn:E; [lia|].
  unfold ArtworkTablePage.effect, ArtworkTablePage.fetchData,
    ArtworkTablePage.apiPage. simpl. rewrite Hrej. simpl.
  split_and!; try done. by rewrite <- !app_assoc.
Qed.

Lemma page_change_failure_keeps_rows_witness :
  let st' := ArtworkTablePage.then_render second_page_fails
               (ArtworkTable.onPageChange (sample_event 12)) sample_rows in
  ArtworkTable.first st' = 12
  ∧ ArtworkTable.artworks st' = ArtworkTable.artworks sample_rows
  ∧ ArtworkTable.totalRecords st' = 30
  ∧ ArtworkTable.loading st' = false
  ∧ ArtworkTable.selectedIds st' = [9; 2]
  ∧ ArtworkTable.calls st'
    = [] ++ [ArtworkTable.CallSetFirst 12; ArtworkTable.CallFetch 2;
             ArtworkTable.CallConsoleError].
Proof.
  apply (page_change_failure_keeps_rows second_page_fails (sample_event 12)
           sample_rows).
  - simpl. lia.
  - reflexivity.
Defined.

End navigation.

(** ** The paginator of [CustomTable] and the page it shows *)

Section paginator.
Import CustomTable CustomTablePage.

(** What a click does to the offset. *)
Lemma click_first c st :
  first (click c st)
  = if rendered c st && negb (disabled c st)
    then ev_first (event_of c st) else first st.
Proof. unfold click. by destruct (rendered c st && negb (disabled c st)). Qed.

Lemma click_frame c st :
  totalRecords (click c st) = totalRecords st
  ∧ artworks (click c st) = artworks st
  ∧ selectedArtworks (click c st) = selectedArtworks st
  ∧ loading (click c st) = loading st.
Proof. unfold click. by destruct (rendered c st && negb (disabled c st)). Qed.

(** A click leaves an offset in range that is a multiple of the page
    size. *)
Lemma click_offset c st :
  offset_in_range (first st) (totalRecords st) →
  (API_PAGE_SIZE | first st) →
  offset_in_range (first (click c st)) (totalRecords st)
  ∧ (API_PAGE_SIZE | first (click c st)).
Proof.
  intros Hrange [q Hq]. rewrite click_first.
  destruct (rendered c st && negb (disabled c st)) eqn:Hon;
    [|split; [done|by exists q]].
  apply andb_true_iff in Hon as [Hren Hdis]. apply negb_true_iff in Hdis.
  unfold offset_in_range, pageCount, currentPage, API_PAGE_SIZE in *.
  destruct c as [| |n]; simpl in *;
    unfold pageCount, currentPage, API_PAGE_SIZE in *;
    try apply bool_decide_eq_true in Hren;
    rewrite ?Hq, ?Z.div_mul in * by done.
  - split; [lia|]. exists (q - 1). lia.
  - split; [lia|]. exists (q + 1). lia.
  - split; [lia|]. by exists (Z.of_nat n).
Qed.

Lemma in_range_below_total offset total :
  offset_in_range offset total → 0 < total → offset < total.
Proof.
  unfold offset_in_range, ceil_div, API_PAGE_SIZE. intros Hrange Hpos.
  pose proof (Z.div_mod (total + 12 - 1) 12).
  pose proof (Z.mod_pos_bound (total + 12 - 1) 12). lia.
Qed.

(** X12. In the hand-written table, against a collection served
    without failure: when the offset is in range and a multiple of the
    page size, and the table shows the rows of the collection from
    that offset on, then after a click on any button of the paginator
    and the rendering that follows, the table again shows the rows
    from the offset on, as many as the line "Showing ... to ..."
    announces, and the selection is as it was. *)
Theorem paginator_click_shows_rows coll c st :
  offset_in_range (first st) (totalRecords st) →
  (API_PAGE_SIZE | first st) →
  totalRecords st = Z.of_nat (length coll) →
  artworks st = rows_at to_artwork coll (first st) →
  let st' := then_render (collection_net coll) (click c) st in
  artworks st' = rows_at to_artwork coll (first st')
  ∧ totalRecords st' = Z.of_nat (length coll)
  ∧ Z.of_nat (length (artworks st')) = showing_to st' - first st'
  ∧ selectedArtworks st' = selectedArtworks st.
Proof.
  intros Hrange Hdiv Htotal Hrows st'.
  destruct (click_offset c st Hrange Hdiv) as [Hrange' Hdiv'].
  destruct (click_frame c st) as (Ht & Ha & Hs & _).
  assert (artworks st' = rows_at to_artwork coll (first st')
          ∧ totalRecords st' = Z.of_nat (length coll)
          ∧ first st' = first (click c st)
          ∧ selectedArtworks st' = selectedArtworks st) as (Hr & Hn & Hf & Hsel).
  { subst st'. unfold then_render, render_after.
    destruct (first (click c st) =? first st) eqn:E.
    - apply Z.eqb_eq in E. rewrite Ha, Ht, E. done.
    - unfold effect, fetchData, apiPage, collection_net. simpl.
      split_and!; try done. unfold rows_at.
      rewrite page_of_offset; [done| |done].
      unfold offset_in_range in Hrange'. lia. }
  split_and!; [done..| |done].
  rewrite Hr, Hf. unfold rows_at, showing_to.
  rewrite length_fmap, length_take, length_drop, Hn, Hf, <- Htotal.
  destruct (decide (0 < totalRecords st)) as [Hpos|Hzero].
  - pose proof (in_range_below_total _ _ Hrange' Hpos).
    unfold offset_in_range, API_PAGE_SIZE in *. lia.
  - unfold offset_in_range, ceil_div, API_PAGE_SIZE in *.
    assert ((totalRecords st + 12 - 1) / 12 ≤ 0).
    { apply Z.lt_succ_r, Z.div_lt_upper_bound; lia. }
    lia.
Qed.

Lemma paginator_click_shows_rows_witness :
  let st := setArtworks (rows_at to_artwork (sample_collection 30) 12)
              (sample_table 30 12 [7; 8] None) in
  let st' := then_render (collection_net (sample_collection 30))
               (click Next) st in
  artworks st' = rows_at to_artwork (sample_collection 30) (first st')
  ∧ totalRecords st' = 30
  ∧ Z.of_nat (length (artworks st')) = showing_to st' - first st'
  ∧ selectedArtworks st' = selectedArtworks st.
Proof.
  apply (paginator_click_shows_rows (sample_collection 30) Next
           (setArtworks (rows_at to_artwork (sample_collection 30) 12)
              (sample_table 30 12 [7; 8] None))).
  - vm_compute. split; discriminate.
  - exists 1. reflexivity.
  - reflexivity.
  - reflexivity.
Defined.

(** X13. With the offset in range, the line "Showing [from] to [to]
    of [totalRecords] results" of the hand-written table announces,
    when there are records, a range of at least one and at most
    twelve rows inside [1, totalRecords]; without records it reads
    "Showing 1 to 0 of 0". *)
Theorem showing_line_in_range st :
  offset_in_range (first st) (totalRecords st) → 0 ≤ totalRecords st →
  (0 < totalRecords st →
     1 ≤ showing_from st ≤ showing_to st
     ∧ showing_to st ≤ totalRecords st
     ∧ showing_to st - showing_from st < API_PAGE_SIZE)
  ∧ (totalRecords st = 0 → showing_from st = 1 ∧ showing_to st = 0).
Proof.
  intros Hrange Hnn. unfold showing_from, showing_to. split.
  - intros Hpos. pose proof (in_range_below_total _ _ Hrange Hpos).
    unfold offset_in_range, API_PAGE_SIZE in *. lia.
  - intros Hzero. rewrite Hzero in *.
    unfold offset_in_range, API_PAGE_SIZE in *.
    change (ceil_div 0 12) with 0 in Hrange. lia.
Qed.

Lemma showing_line_in_range_witness :
  let st := sample_table 30 24 [] None in
  (0 < 30 →
     1 ≤ showing_from st ≤ showing_to st
     ∧ showing_to st ≤ 30
     ∧ showing_to st - showing_from st < API_PAGE_SIZE)
  ∧ (30 = 0 → showing_from st = 1 ∧ showing_to st = 0).
Proof.
  apply (showing_line_in_range (sample_table 30 24 [] None)).
  - vm_compute. split; discriminate.
  - simpl. lia.
Defined.

(** X14. From an offset in range that is a multiple of the page size,
    "Next" and then "Previous" lead back to the offset where "Next"
    is enabled, and so do "Previous" and then "Next" where "Previous"
    is enabled. *)
Theorem paginator_next_previous st :
  offset_in_range (first st) (totalRecords st) →
  (API_PAGE_SIZE | first st) →
  (disabled Next st = false →
     first (click Next st) = first st + API_PAGE_SIZE
     ∧ first (click Previous (click Next st)) = first st)
  ∧ (disabled Previous st = false →
       first (click Previous st) = first st - API_PAGE_SIZE
       ∧ first (click Next (click Previous st)) = first st).
Proof.
  intros Hrange [q Hq]. split; intros Hen.
  - assert (click Next st = onPageChange (event_of Next st) st) as ->.
    { unfold click. change (rendered Next st) with true. by rewrite Hen. }
    split; [done|].
    set (st1 := onPageChange (event_of Next st) st).
    assert (disabled Previous st1 = false) as Hen1.
    { unfold offset_in_range in Hrange.
      unfold disabled, currentPage, st1 in *. simpl.
      unfold API_PAGE_SIZE in *.
      rewrite Hq in *. replace (q * 12 + 12) with ((q + 1) * 12) by lia.
      rewrite Z.div_mul by done. lia. }
    unfold click. change (rendered Previous st1) with true.
    rewrite Hen1. simpl. lia.
  - assert (click Previous st = onPageChange (event_of Previous st) st) as ->.
    { unfold click. change (rendered Previous st) with true. by rewrite Hen. }
    split; [done|].
    set (st1 := onPageChange (event_of Previous st) st).
    assert (disabled Next st1 = false) as Hen1.
    { unfold offset_in_range in Hrange.
      unfold disabled, currentPage, pageCount, st1 in *. simpl.
      unfold API_PAGE_SIZE in *. rewrite Hq in *.
      replace (q * 12 - 12) with ((q - 1) * 12) by lia.
      rewrite Z.div_mul in * by done. lia. }
    unfold click. change (rendered Next st1) with true.
    rewrite Hen1. simpl. lia.
Qed.

Lemma paginator_next_previous_witness :
  let st := sample_table 30 12 [] None in
  (disabled Next st = false →
     first (click Next st) = 12 + API_PAGE_SIZE
     ∧ first (click Previous (click Next st)) = 12)
  ∧ (disabled Previous st = false →
       first (click Previous st) = 12 - API_PAGE_SIZE
       ∧ first (click Next (click Previous st)) = 12).
Proof.
  apply (paginator_next_previous (sample_table 30 12 [] None)).
  - vm_compute. split; discriminate.
  - exists 1. reflexivity.
Defined.

(** X15. A click on the page button of index [i], which exists for
    [i < pageCount], leads to the offset [12 i]: the effect then asks
    the API for page [i + 1], and the button with the highlight is
    this one and no other. *)
Theorem page_button_leads_to_page i st :
  rendered (PageButton i) st = true →
  let st' := click (PageButton i) st in
  first st' = Z.of_nat i * API_PAGE_SIZE
  ∧ apiPage st' = S i
  ∧ ∀ j, highlighted j st' = true ↔ j = i.
Proof.
  intros Hren st'. subst st'. unfold click. rewrite Hren. simpl.
  unfold apiPage, highlighted, currentPage, API_PAGE_SIZE. simpl.
  rewrite Z.div_mul by done. split_and!; [done|lia|].
  intros j. rewrite Z.eqb_eq. lia.
Qed.

Lemma page_button_leads_to_page_witness :
  let st' := click (PageButton 2) (sample_table 30 0 [] None) in
  first st' = Z.of_nat 2 * API_PAGE_SIZE
  ∧ apiPage st' = 3%nat
  ∧ ∀ j, highlighted j st' = true ↔ j = 2%nat.
Proof.
  apply (page_button_leads_to_page 2 (sample_table 30 0 [] None)).
  reflexivity.
Defined.

End paginator.

(** ** The checkbox of a row in [CustomTable], further *)

Section checkbox_more.
Import CustomTable.

Lemma existsb_id (artwork : Artwork) (prev : list Artwork) :
  existsb (λ item, id item =? id artwork) prev = true
  ↔ id artwork ∈ id <$> prev.
Proof.
  induction prev as [|item prev IH]; simpl.
  - split; [done|]. by intros ?%elem_of_nil.
  - rewrite orb_true_iff, IH, elem_of_cons, Z.eqb_eq.
    split; (intros [?|?]; [by left|by right]).
Qed.

Lemma NoDup_ids_filter (P : Artwork → Prop) `{!∀ a, Decision (P a)}
    (l : list Artwork) :
  NoDup (id <$> l) → NoDup (id <$> filter P l).
Proof.
  induction l as [|a l IH]; [done|].
  rewrite fmap_cons, NoDup_cons. intros [Ha Hnd].
  destruct (decide (P a)).
  - rewrite filter_cons_True, fmap_cons, NoDup_cons by done.
    split; [|by apply IH]. intros Hin. apply Ha.
    apply list_elem_of_fmap in Hin as (b & -> & Hb).
    apply list_elem_of_filter in Hb as [_ Hb]. by apply list_elem_of_fmap_2.
  - rewrite filter_cons_False by done. by apply IH.
Qed.

(** X16. [handleCheckboxChange] keeps the ids of the selected artworks
    pairwise different: no artwork gets into the selection twice,
    whatever box is checked or unchecked. *)
Theorem checkbox_keeps_ids_distinct artwork isChecked st :
  NoDup (id <$> selectedArtworks st) →
  NoDup (id <$> selectedArtworks (handleCheckboxChange artwork isChecked st)).
Proof.
  intros Hnd. simpl. unfold checkbox_update. destruct isChecked.
  - destruct (existsb _ (selectedArtworks st)) eqn:E; simpl; [done|].
    rewrite fmap_app. apply NoDup_app. split_and!; [done| |apply NoDup_singleton].
    intros x Hx Hin. apply list_elem_of_singleton in Hin as ->.
    apply existsb_id in Hx. congruence.
  - by apply NoDup_ids_filter.
Qed.

Lemma checkbox_keeps_ids_distinct_witness :
  NoDup (id <$> selectedArtworks
           (handleCheckboxChange (sample_artwork 8) true
              (sample_table 30 0 [7; 8] None))).
Proof.
  apply (checkbox_keeps_ids_distinct (sample_artwork 8) true
           (sample_table 30 0 [7; 8] None)).
  apply (bool_decide_unpack _). by vm_compute.
Defined.

(** X17. After [handleCheckboxChange(a, true)] the id of [a] is
    selected and every other id is selected exactly if it was; the
    call changes nothing when [a] was selected already, so that
    checking twice is checking once. *)
Theorem checkbox_check_selects st artwork x :
  x ≠ id artwork →
  let st' := handleCheckboxChange artwork true st in
  isSelected st' (id artwork) = true
  ∧ isSelected st' x = isSelected st x
  ∧ (isSelected st (id artwork) = true → st' = st)
  ∧ handleCheckboxChange artwork true st' = st'.
Proof.
  intros Hx st'.
  assert (∀ s, isSelected s (id artwork) = true →
               handleCheckboxChange artwork true s = s) as Hsame.
  { intros s Hs. apply isSelected_true, existsb_id in Hs.
    unfold handleCheckboxChange, setSelectedArtworks, checkbox_update.
    rewrite Hs. by destruct s. }
  assert (isSelected st' (id artwork) = true) as Hin.
  { apply isSelected_true. subst st'. simpl. unfold checkbox_update.
    destruct (existsb _ (selectedArtworks st)) eqn:E; simpl.
    - by apply existsb_id.
    - rewrite fmap_app. apply elem_of_app. right. by left. }
  split_and!; [done| |apply Hsame|by apply Hsame].
  unfold isSelected. apply has_ext. rewrite !elem_of_from.
  subst st'. simpl. unfold checkbox_update.
  destruct (existsb _ (selectedArtworks st)); simpl; [done|].
  rewrite fmap_app, elem_of_app. simpl. rewrite list_elem_of_singleton. tauto.
Qed.

Lemma checkbox_check_selects_witness :
  let st := sample_table 30 0 [7; 8] None in
  let st' := handleCheckboxChange (sample_artwork 5) true st in
  isSelected st' 5 = true
  ∧ isSelected st' 7 = isSelected st 7
  ∧ (isSelected st 5 = true → st' = st)
  ∧ handleCheckboxChange (sample_artwork 5) true st' = st'.
Proof.
  apply (checkbox_check_selects (sample_table 30 0 [7; 8] None)
           (sample_artwork 5) 7).
  simpl. lia.
Defined.

End checkbox_more.

(** ** The sequential bulk selection of [CustomTable] *)

Section sequential_bulk.
Import CustomTable CustomTablePage.

Lemma push_items_spec total fetched (acc : list Artwork) c :
  let n := Z.to_nat (total - c) in
  push_items total fetched (acc, c)
  = (acc ++ take n fetched, c + Z.of_nat (length (take n fetched))).
Proof.
  revert acc c. induction fetched as [|a rest IH]; intros acc c n; simpl.
  - subst n. rewrite take_nil, app_nil_r. simpl. f_equal. lia.
  - destruct (c <? total) eqn:E.
    + assert (n = S (Z.to_nat (total - (c + 1)))) as -> by lia.
      rewrite IH. simpl. rewrite <- app_assoc. simpl. f_equal. lia.
    + assert (n = 0%nat) as -> by lia. simpl. rewrite app_nil_r. f_equal. lia.
Qed.

(** When no request fails, the loop collects the leading rows that are
    still missing from the pages that remain. *)
Lemma fetch_pages_fulfilled fuel (resp : nat → PageResponse)
    total maxPages page acc c :
  maxPages < Z.of_nat page + Z.of_nat fuel →
  fetch_pages fuel (λ p, Fulfilled (resp p)) total maxPages page (acc, c)
  = Some (Fulfilled
            (acc ++ take (Z.to_nat (total - c)) (rows_from resp page maxPages))).
Proof.
  revert page acc c.
  induction fuel as [|fuel IH]; intros page acc c Hfuel; simpl.
  - destruct (c <? total) eqn:E; simpl.
    + destruct (Z.of_nat page <=? maxPages) eqn:E'; [lia|].
      unfold rows_from.
      replace (Z.to_nat (maxPages + 1 - Z.of_nat page)) with 0%nat by lia.
      simpl. by rewrite take_nil, app_nil_r.
    + replace (Z.to_nat (total - c)) with 0%nat by lia. simpl.
      by rewrite app_nil_r.
  - destruct (c <? total) eqn:E; simpl.
    + destruct (Z.of_nat page <=? maxPages) eqn:E'.
      * rewrite push_items_spec, IH by lia. cbv zeta. do 2 f_equal.
        rewrite <- app_assoc. f_equal. unfold rows_from.
        replace (Z.to_nat (maxPages + 1 - Z.of_nat page))
          with (S (Z.to_nat (maxPages + 1 - Z.of_nat (S page)))) by lia.
        simpl. rewrite take_app. f_equal. f_equal.
        rewrite length_take. lia.
      * unfold rows_from.
        replace (Z.to_nat (maxPages + 1 - Z.of_nat page)) with 0%nat by lia.
        simpl. by rewrite take_nil, app_nil_r.
    + replace (Z.to_nat (total - c)) with 0%nat by lia. simpl.
      by rewrite app_nil_r.
Qed.

Lemma concat_fmap_fmap {A B C : Type} (f : B → C) (g : A → list B)
    (l : list A) :
  concat ((λ p, f <$> g p) <$> l) = f <$> concat (g <$> l).
Proof.
  induction l as [|a l IH]; [done|]. simpl. rewrite fmap_app. by f_equal.
Qed.

(** On a collection that is served without failure and whose size is
    the [totalRecords] of the state, the sequential run with a
    positive count ends with the first [K] rows of the collection. *)
Lemma sequential_on_collection coll st K :
  totalRecords st = Z.of_nat (length coll) →
  tempRows st = Some K → 0 < K →
  applyRowsPerPageAndSelect (collection_net coll) st
  = Some (setShowOverlay false (setFirst 0 (setLoading false
            (setSelectedArtworks (λ _, to_artwork <$> take (Z.to_nat K) coll)
               (setLoading true st))))).
Proof.
  intros Htotal HK Hpos. unfold applyRowsPerPageAndSelect. rewrite HK.
  change (default 0 (Some K)) with K. cbv zeta.
  destruct (K <=? 0) eqn:E; [lia|].
  set (resp := λ p, {| data := page_of coll p;
                       pagination_total := Z.of_nat (length coll) |}).
  change (collection_net coll) with (λ p, Fulfilled (resp p)).
  rewrite fetch_pages_fulfilled by lia.
  assert (take (Z.to_nat (K - 0))
            (rows_from resp 1 (ceil_div (totalRecords st) API_PAGE_SIZE))
          = to_artwork <$> take (Z.to_nat K) coll) as ->; [|done].
  unfold rows_from.
  rewrite (concat_fmap_fmap to_artwork (λ p, data (resp p))).
  change (λ p, data (resp p)) with (page_of coll).
  rewrite <- fmap_S_seq, pages_concat, <- fmap_take, Z.sub_0_r.
  f_equal. rewrite (take_ge coll); [done|].
  pose proof (ceil_div_page (totalRecords st)).
  pose proof (ceil_div_nonneg (totalRecords st)).
  unfold API_PAGE_SIZE in *. lia.
Qed.

(** X18. In the hand-written table, on a collection served without
    failure whose size is the [totalRecords] of the state, a bulk
    selection with a count [K > 0] ends with the first [K] rows of
    the collection selected, in the order of the collection, all of
    them when there are fewer; the offset is 0, the loading flag is
    down and the overlay is closed. *)
Theorem sequential_bulk_select_prefix coll st K :
  totalRecords st = Z.of_nat (length coll) →
  tempRows st = Some K → 0 < K →
  ∃ st',
    applyRowsPerPageAndSelect (collection_net coll) st = Some st'
    ∧ selectedArtworks st' = to_artwork <$> take (Z.to_nat K) coll
    ∧ first st' = 0 ∧ loading st' = false ∧ showOverlay st' = false.
Proof.
  intros Htotal HK Hpos. rewrite (sequential_on_collection coll st K) by done.
  by eexists.
Qed.

Lemma sequential_bulk_select_prefix_witness :
  ∃ st',
    applyRowsPerPageAndSelect (collection_net (sample_collection 30))
      (sample_table 30 24 [7; 8] (Some 20)) = Some st'
    ∧ selectedArtworks st' = to_artwork <$> take 20 (sample_collection 30)
    ∧ first st' = 0 ∧ loading st' = false ∧ showOverlay st' = false.
Proof.
  apply (sequential_bulk_select_prefix (sample_collection 30)
           (sample_table 30 24 [7; 8] (Some 20)) 20).
  - reflexivity.
  - reflexivity.
  - lia.
Defined.

(** The loop ends in the [catch] when it comes to a page that fails
    before the count is reached. *)
Lemma fetch_pages_rejected fuel net (resp : nat → PageResponse)
    total maxPages p page acc c :
  (page ≤ p)%nat → Z.of_nat p ≤ maxPages →
  maxPages < Z.of_nat page + Z.of_nat fuel →
  (∀ q, (page ≤ q < p)%nat → net q = Fulfilled (resp q)) →
  net p = Rejected →
  c + Z.of_nat (length (concat ((λ q, data (resp q)) <$> seq page (p - page))))
    < total →
  fetch_pages fuel net total maxPages page (acc, c) = Some Rejected.
Proof.
  revert page acc c.
  induction fuel as [|fuel IH]; intros page acc c Hle Hmax Hfuel Hok Hrej Hsum;
    simpl.
  - lia.
  - destruct (c <? total) eqn:E; [|lia]. simpl.
    destruct (Z.of_nat page <=? maxPages) eqn:E'; [|lia].
    destruct (decide (page = p)) as [->|Hne]; [by rewrite Hrej|].
    rewrite Hok by lia. rewrite push_items_spec. cbv zeta.
    replace (p - page)%nat with (S (p - S page)) in Hsum by lia.
    change (seq page (S (p - S page)))
      with (page :: seq (S page) (p - S page)) in Hsum.
    rewrite fmap_cons in Hsum. cbn [concat] in Hsum.
    rewrite length_app in Hsum.
    apply IH; [lia..| |done|].
    + intros q Hq. apply Hok. lia.
    + rewrite length_take, length_fmap. lia.
Qed.

(** X19. In the hand-written table, when a bulk selection comes to a
    page that fails while the pages before it, all served, hold fewer
    than [K] rows together, the selection is the one it started with:
    nothing of what was collected is applied.  The offset still goes
    to 0, the loading flag is down and the overlay is closed. *)
Theorem sequential_bulk_failure_keeps_selection net resp st K p :
  tempRows st = Some K →
  (1 ≤ p)%nat →
  Z.of_nat p ≤ ceil_div (totalRecords st) API_PAGE_SIZE →
  (∀ q, (1 ≤ q < p)%nat → net q = Fulfilled (resp q)) →
  net p = Rejected →
  Z.of_nat (length (concat ((λ q, data (resp q)) <$> seq 1 (p - 1)))) < K →
  ∃ st',
    applyRowsPerPageAndSelect net st = Some st'
    ∧ selectedArtworks st' = selectedArtworks st
    ∧ first st' = 0 ∧ loading st' = false ∧ showOverlay st' = false.
Proof.
  intros HK Hp Hmax Hok Hrej Hsum.
  unfold applyRowsPerPageAndSelect. rewrite HK.
  change (default 0 (Some K)) with K. cbv zeta.
  destruct (K <=? 0) eqn:E; [lia|].
  rewrite (fetch_pages_rejected _ net resp K _ p) by (done || lia).
  by eexists.
Qed.

Lemma sequential_bulk_failure_keeps_selection_witness :
  ∃ st',
    applyRowsPerPageAndSelect second_page_fails
      (sample_table 30 24 [7; 8] (Some 30)) = Some st'
    ∧ selectedArtworks st' = sample_artwork <$> [7; 8]
    ∧ first st' = 0 ∧ loading st' = false ∧ showOverlay st' = false.
Proof.
  apply (sequential_bulk_failure_keeps_selection second_page_fails
           sample_response (sample_table 30 24 [7; 8] (Some 30)) 30 2%nat).
  - reflexivity.
  - lia.
  - vm_compute. discriminate.
  - intros q Hq. assert (q = 1%nat) as -> by lia. reflexivity.
  - reflexivity.
  - vm_compute. reflexivity.
Defined.

End sequential_bulk.

(** ** The sequential and the batched bulk selection *)

(** X20. On a collection with pairwise different ids, served without
    failure, whose size is the [totalRecords] of both states, the
    batched bulk selection of the last revision selects, for a count
    [K > 0] and any order of arrival, the ids of the artworks that the
    sequential bulk selection of the hand-written table selects, in
    the same order. *)
Theorem batched_selects_ids_of_sequential coll sched
    (st : ArtworkTable.State) (cst : CustomTable.State) K :
  every_order sched → NoDup (ids coll) →
  ArtworkTable.totalRecords st = Z.of_nat (length coll) →
  CustomTable.totalRecords cst = Z.of_nat (length coll) →
  ArtworkTable.tempRows st = Some K →
  CustomTable.tempRows cst = Some K → 0 < K →
  ∃ st' cst',
    ArtworkTable.applyRowsPerPageAndSelect (collection_net coll) sched st
    = Some st'
    ∧ CustomTable.applyRowsPerPageAndSelect (collection_net coll) cst
      = Some cst'
    ∧ ArtworkTable.selectedIds st' = id <$> CustomTable.selectedArtworks cst'.
Proof.
  intros Hsched Hnd Ht Ht' HK HK' Hpos.
  destruct (bulk_select_result coll sched st K) as (st' & Hst' & Hsel);
    [done..|lia|].
  rewrite Hst', (sequential_on_collection coll cst K) by done.
  do 2 eexists. split_and!; [done..|]. rewrite Hsel. simpl.
  by rewrite <- list_fmap_compose.
Qed.

Lemma batched_selects_ids_of_sequential_witness :
  ∃ st' cst',
    ArtworkTable.applyRowsPerPageAndSelect
      (collection_net (sample_collection 30)) in_reverse_order
      (sample_state 30 (Some 20)) = Some st'
    ∧ CustomTable.applyRowsPerPageAndSelect
        (collection_net (sample_collection 30))
        (sample_table 30 24 [7; 8] (Some 20)) = Some cst'
    ∧ ArtworkTable.selectedIds st' = id <$> CustomTable.selectedArtworks cst'.
Proof.
  apply (batched_selects_ids_of_sequential (sample_collection 30)
           in_reverse_order (sample_state 30 (Some 20))
           (sample_table 30 24 [7; 8] (Some 20)) 20).
  - exact every_order_reverse.
  - exact sample_collection_NoDup.
  - reflexivity.
  - reflexivity.
  - reflexivity.
  - reflexivity.
  - lia.
Defined.

(** ** The checkboxes of the table in the first revision *)

Section first_revision.

Lemma filter_fmap {A B : Type} (f : A → B) (P : B → Prop)
    `{!∀ y, Decision (P y)} (l : list A) :
  filter P (f <$> l) = f <$> filter (λ x, P (f x)) l.
Proof.
  induction l as [|a l IH]; [done|]. rewrite fmap_cons.
  destruct (decide (P (f a))).
  - by rewrite !filter_cons_True, fmap_cons, IH by done.
  - by rewrite !filter_cons_False, IH by done.
Qed.

(** X21. In the first revision, [onDataTableSelectionChange] keeps
    the selected artworks that are not on the page shown, in their
    order, and puts the rows of [e.value] after them: an id is
    selected afterwards exactly if it is the id of a row of [e.value]
    or was selected and is not on the page.  When the rows of
    [e.value] are rows of the page with pairwise different ids, and
    no id was selected twice, no id is selected twice afterwards. *)
Theorem first_revision_selection value (st : FirstRevision.State) x :
  NoDup (id <$> FirstRevision.selectedArtworks st) →
  NoDup (id <$> value) →
  id <$> value ⊆ id <$> FirstRevision.artworks st →
  let st' := FirstRevision.onDataTableSelectionChange value st in
  NoDup (id <$> FirstRevision.selectedArtworks st')
  ∧ (JSSet.has (FirstRevision.selectedArtworkIds st') x = true
     ↔ (JSSet.has (FirstRevision.selectedArtworkIds st) x = true
        ∧ x ∉ id <$> FirstRevision.artworks st)
       ∨ x ∈ id <$> value).
Proof.
  intros Hsel Hval Hsub st'. subst st'. simpl. split.
  - rewrite fmap_app. apply NoDup_app. split_and!; [|  |done].
    + by apply NoDup_ids_filter.
    + intros y Hy Hin. apply list_elem_of_fmap in Hy as (a & -> & Ha).
      apply list_elem_of_filter in Ha as [Hoff _].
      apply negb_true_iff, has_false in Hoff. apply Hoff.
      apply elem_of_from. by apply Hsub.
  - unfold FirstRevision.selectedArtworkIds. simpl.
    rewrite !has_true, !elem_of_from, fmap_app, elem_of_app.
    rewrite !list_elem_of_fmap. split.
    + intros [(a & -> & Ha)|?]; [left|by right].
      apply list_elem_of_filter in Ha as [Hoff Ha].
      apply negb_true_iff, has_false in Hoff. rewrite elem_of_from in Hoff.
      split; [by exists a|]. by rewrite list_elem_of_fmap in Hoff.
    + intros [[(a & -> & Ha) Hoff]|?]; [left|by right].
      exists a. split; [done|]. apply list_elem_of_filter. split; [|done].
      apply negb_true_iff, has_false. rewrite elem_of_from.
      by rewrite list_elem_of_fmap.
Qed.

Lemma first_revision_selection_witness :
  let st := sample_first [1; 2; 3] [9; 2] in
  let st' := FirstRevision.onDataTableSelectionChange
               [sample_artwork 1; sample_artwork 3] st in
  NoDup (id <$> FirstRevision.selectedArtworks st')
  ∧ (JSSet.has (FirstRevision.selectedArtworkIds st') 9 = true
     ↔ (JSSet.has (FirstRevision.selectedArtworkIds st) 9 = true
        ∧ 9 ∉ id <$> FirstRevision.artworks st)
       ∨ 9 ∈ id <$> [sample_artwork 1; sample_artwork 3]).
Proof.
  apply (first_revision_selection [sample_artwork 1; sample_artwork 3]
           (sample_first [1; 2; 3] [9; 2]) 9).
  - apply (bool_decide_unpack _). by vm_compute.
  - apply (bool_decide_unpack _). by vm_compute.
  - apply (bool_decide_unpack _). by vm_compute.
Defined.

(** X22. The last revision does to the ids what the first revision
    does to the artworks: from states that show the same page and
    where the ids selected are the ids of the artworks selected, in
    their order, [onDataTableSelectionChange] of the last revision
    leaves the set of the ids of the artworks that
    [onDataTableSelectionChange] of the first revision leaves
    ([selectedArtworkIds]), for the same [e.value]. *)
Theorem table_selection_revisions_agree value
    (st : ArtworkTable.State) (fst : FirstRevision.State) :
  ArtworkTable.artworks st = FirstRevision.artworks fst →
  ArtworkTable.selectedIds st = id <$> FirstRevision.selectedArtworks fst →
  ArtworkTable.selectedIds
    (ArtworkTablePage.onDataTableSelectionChange value st)
  = FirstRevision.selectedArtworkIds
      (FirstRevision.onDataTableSelectionChange value fst).
Proof.
  intros Hpage Hsel. unfold FirstRevision.selectedArtworkIds. simpl.
  rewrite Hpage, Hsel, fmap_app. unfold JSSet.from at 4.
  rewrite foldl_app. f_equal. unfold JSSet.from at 1. f_equal.
  apply filter_fmap.
Qed.

Lemma table_selection_revisions_agree_witness :
  ArtworkTable.selectedIds
    (ArtworkTablePage.onDataTableSelectionChange
       [sample_artwork 1; sample_artwork 3] sample_rows)
  = FirstRevision.selectedArtworkIds
      (FirstRevision.onDataTableSelectionChange
         [sample_artwork 1; sample_artwork 3] (sample_first [1; 2; 3] [9; 2])).
Proof.
  apply (table_selection_revisions_agree [sample_artwork 1; sample_artwork 3]
           sample_rows (sample_first [1; 2; 3] [9; 2])).
  - reflexivity.
  - reflexivity.
Defined.

End first_revision.

(** ** The pages that a bulk selection needs *)

Section bulk_pages.
Import ArtworkTable ArtworkTablePage.

Lemma length_concat_pages (resp : nat → PageResponse) (pages : list nat) :
  (∀ p, (length (data (resp p)) ≤ 12)%nat) →
  (length (concat (data <$> (resp <$> pages))) ≤ 12 * length pages)%nat.
Proof.
  intros Hpage. induction pages as [|p pages IH]; [simpl; lia|].
  rewrite !fmap_cons. cbn [concat]. rewrite length_app, length_cons.
  pose proof (Hpage p). lia.
Qed.

(** While the pages before the last one hold fewer items than are
    still to select, the loop requests every page that is left. *)
Lemma batches_result_every_page fuel (resp : nat → PageResponse) b :
  (length (pageNumbers b) ≤ i b + fuel)%nat →
  ((i b < length (pageNumbers b))%nat →
   selectedCount b
   + Z.of_nat (length (concat (data <$> (resp <$>
        take (length (pageNumbers b) - 1 - i b) (drop (i b) (pageNumbers b))))))
   < totalToSelect b) →
  ∃ r, batches_result fuel (λ p, Fulfilled (resp p)) b
       = Some (r, drop (i b) (pageNumbers b)).
Proof.
  revert b. induction fuel as [|fuel IH]; intros b Hfuel Hsum; simpl;
    destruct (loop_head b) as [|batch] eqn:Hhead.
  - apply loop_head_Leave in Hhead as [Hi|Hc].
    + eexists. by rewrite drop_ge.
    + destruct (decide (i b < length (pageNumbers b))%nat) as [Hlt|Hge];
        [specialize (Hsum Hlt); lia|].
      eexists. by rewrite drop_ge by lia.
  - apply loop_head_Await in Hhead as (? & _). lia.
  - apply loop_head_Leave in Hhead as [Hi|Hc].
    + eexists. by rewrite drop_ge.
    + destruct (decide (i b < length (pageNumbers b))%nat) as [Hlt|Hge];
        [specialize (Hsum Hlt); lia|].
      eexists. by rewrite drop_ge by lia.
  - apply loop_head_Await in Hhead as (Hi & Hc & Hbatch).
    specialize (Hsum Hi). rewrite all_settled_responses.
    destruct (IH (after_batch b (resp <$> batch))) as [r Hr].
    { unfold after_batch, CONCURRENT_REQUESTS. simpl. lia. }
    { unfold after_batch. simpl. rewrite take_results_spec. simpl.
      intros Hlt. rewrite length_take.
      replace (length (pageNumbers b) - 1 - i b)%nat
        with (CONCURRENT_REQUESTS
              + (length (pageNumbers b) - 1 - (i b + CONCURRENT_REQUESTS)))%nat
        in Hsum by (unfold CONCURRENT_REQUESTS in *; lia).
      rewrite <- take_take_drop, <- Hbatch, drop_drop in Hsum.
      rewrite !fmap_app, concat_app, length_app in Hsum. lia. }
    rewrite Hr. eexists. f_equal. f_equal. simpl.
    rewrite <- drop_drop, Hbatch. apply take_drop.
Qed.

(** X23. When no request fails and no page holds more than twelve
    items, a bulk selection with a count [K > 0] requests every one
    of the pages 1 to [min(ceil(K / 12), ceil(totalRecords / 12))]:
    it does not stop short of the last page it planned. *)
Theorem bulk_requests_every_page (resp : nat → PageResponse) st K :
  tempRows st = Some K → 0 < K →
  (∀ p, (length (data (resp p)) ≤ 12)%nat) →
  pages_requested (λ p, Fulfilled (resp p)) st
  = S <$> seq 0 (Z.to_nat (Z.min (ceil_div K API_PAGE_SIZE)
                             (ceil_div (totalRecords st) API_PAGE_SIZE))).
Proof.
  intros HK Hpos Hpage. unfold pages_requested. rewrite HK.
  change (default 0 (Some K)) with K. cbv zeta.
  set (b := bulk_init K st).
  destruct (batches_result_every_page (length (pageNumbers b)) resp b)
    as [r ->]; [simpl; lia| |done].
  intros Hlt. simpl.
  pose proof (length_concat_pages resp
    (take (length (pageNumbers b) - 1 - 0) (drop 0 (pageNumbers b))) Hpage)
    as Hle.
  rewrite length_take in Hle. simpl in Hlt, Hle.
  rewrite length_fmap, length_seq in Hlt.
  unfold ceil_div, API_PAGE_SIZE in *.
  pose proof (Z.div_mod (K + 12 - 1) 12).
  pose proof (Z.mod_pos_bound (K + 12 - 1) 12).
  set (n := length (concat _)) in *. clearbody n.
  rewrite length_fmap, length_seq in Hle. lia.
Qed.

Lemma bulk_requests_every_page_witness :
  pages_requested (λ p, Fulfilled (sample_response p))
    (sample_state 30 (Some 30))
  = S <$> seq 0 (Z.to_nat (Z.min (ceil_div 30 API_PAGE_SIZE)
                             (ceil_div 30 API_PAGE_SIZE))).
Proof.
  apply (bulk_requests_every_page sample_response
           (sample_state 30 (Some 30)) 30).
  - reflexivity.
  - lia.
  - intros p.
    change (data (sample_response p))
      with (take 12 (drop (12 * (p - 1)) (sample_collection 30))).
    rewrite length_take. lia.
Defined.

End bulk_pages.

(** ** What the table shows after a bulk selection *)

Section bulk_then_page.
Import ArtworkTable ArtworkTablePage.

(** Among the first [m] items of a collection with pairwise different
    ids, those whose id is an id of the first [k] items are the first
    [min k m] items. *)
Lemma filter_take_ids (coll : list ApiItem) k m :
  NoDup (ids coll) →
  filter (λ item, item_id item ∈ ids (take k coll)) (take m coll)
  = take (k `min` m) coll.
Proof.
  revert k m. induction coll as [|x coll IH]; intros k m Hnd.
  - by rewrite !take_nil.
  - unfold ids in Hnd. rewrite fmap_cons, NoDup_cons in Hnd.
    destruct Hnd as [Hx Hnd].
    destruct m as [|m]; [by rewrite Nat.min_0_r|].
    destruct k as [|k].
    + simpl. rewrite filter_cons_False by by intros ?%elem_of_nil.
      etrans; [|apply (IH 0%nat m Hnd)]. apply filter_ext_in.
      intros y _. rewrite take_0. simpl. by split; intros ?%elem_of_nil.
    + simpl. rewrite filter_cons_True by by left.
      f_equal. etrans; [|apply (IH k m Hnd)]. apply filter_ext_in.
      intros y Hy. rewrite elem_of_cons. split; [|by right].
      intros [Heq|?]; [|done]. destruct Hx. rewrite <- Heq.
      apply list_elem_of_fmap_2. by apply (subseteq_take m coll).
Qed.

(** X24. After a bulk selection with a count [K > 0] from a page other
    than the first, on a collection with pairwise different ids served
    without failure, the table that renders next shows the first page
    of the collection with its first [min(K, 12)] rows selected and no
    other row selected. *)
Theorem bulk_select_then_first_page coll sched st K :
  every_order sched → NoDup (ids coll) →
  totalRecords st = Z.of_nat (length coll) →
  tempRows st = Some K → 0 < K → first st ≠ 0 →
  ∃ st',
    applyRowsPerPageAndSelect (collection_net coll) sched st = Some st'
    ∧ let shown := render_after (collection_net coll) st st' in
      artworks shown = rows_at to_artwork coll 0
      ∧ selectedArtworks shown
        = to_artwork <$> take (Z.to_nat K `min` 12) coll.
Proof.
  intros Hsched Hnd Htotal HK Hpos Hfirst.
  rewrite (apply_on_collection coll sched st K) by done.
  eexists. split; [done|]. cbv zeta.
  set (st' := finish_ok _ _).
  assert (first st' = 0) as Hzero by done.
  assert (selectedIds st' = JSSet.from (ids (take (Z.to_nat K) coll)))
    as Hsel by done.
  clearbody st'.
  unfold render_after. rewrite Hzero.
  destruct (0 =? first st) eqn:E; [lia|].
  assert (artworks (effect (collection_net coll) st')
          = rows_at to_artwork coll 0
          ∧ selectedIds (effect (collection_net coll) st') = selectedIds st')
    as [Hrows Hkeep].
  { unfold effect, fetchData, apiPage. rewrite Hzero. done. }
  split; [done|]. unfold selectedArtworks. rewrite Hrows, Hkeep, Hsel.
  unfold rows_at. change (Z.to_nat 0) with 0%nat. rewrite drop_0.
  change (Z.to_nat API_PAGE_SIZE) with 12%nat.
  rewrite from_NoDup by by apply ids_take_NoDup.
  rewrite filter_fmap. f_equal.
  etrans; [|apply (filter_take_ids coll (Z.to_nat K) 12 Hnd)].
  apply filter_ext_in. intros item _. by rewrite has_true.
Qed.

Lemma bulk_select_then_first_page_witness :
  ∃ st',
    applyRowsPerPageAndSelect (collection_net (sample_collection 30))
      in_reverse_order (sample_state 30 (Some 5)) = Some st'
    ∧ let shown := render_after (collection_net (sample_collection 30))
                     (sample_state 30 (Some 5)) st' in
      artworks shown = rows_at to_artwork (sample_collection 30) 0
      ∧ selectedArtworks shown
        = to_artwork <$> take (Z.to_nat 5 `min` 12) (sample_collection 30).
Proof.
  apply (bulk_select_then_first_page (sample_collection 30) in_reverse_order
           (sample_state 30 (Some 5)) 5).
  - exact every_order_reverse.
  - exact sample_collection_NoDup.
  - reflexivity.
  - reflexivity.
  - lia.
  - simpl. lia.
Defined.

End bulk_then_page.
